(** * momonala/menu: the HTTP layer and the currency rate client

    A shallow embedding of [src/app.py] and [src/services/forex_service.py].
    Python values that travel as JSON are terms of [json]; code that may
    raise returns a [result]; the memoised rate client threads its cache
    and the log of upstream requests through an explicit state; the disk
    is the set of paths that exist; the dict of the image endpoint is a
    [gmap]; text is UTF-8 in a string, and a list of code points where
    the code looks at characters. Collaborators whose source is elsewhere
    (the upload validator, the translation client, the search client, the
    library tables, the character database beyond ASCII) are parameters
    of the sections that use them. *)

From Stdlib Require Import QArith Ascii.
From stdpp Require Import gmap strings list fin_maps sorting.

Local Open Scope Z_scope.

(** ** Python values *)

(** A Python [float]: a finite value or one of the three special values
    that [json.loads] and [float()] can also produce. Finite values are
    kept exact, the code never does arithmetic on them. *)
Inductive pyfloat :=
| Fin (q : Q)
| PosInf
| NegInf
| NaN.

(** [x <= 0] on floats; every comparison with NaN is false. *)
Definition float_le_zero (x : pyfloat) : bool :=
  match x with
  | Fin q => Qle_bool q 0
  | NegInf => true
  | PosInf | NaN => false
  end.

Definition one_float : pyfloat := Fin 1.

(** The double nearest to the integer [n], ties going to the even
    significand: a double keeps the 53 leading bits. *)
Definition nearest_double (n : Z) : Z :=
  let a := Z.abs n in
  let shift := Z.log2 a - 52 in
  if shift <=? 0 then n
  else
    let q := Z.shiftr a shift in
    let r := Z.land a (Z.ones shift) in
    let half := Z.shiftl 1 (shift - 1) in
    let q' := if r <? half then q
              else if half <? r then q + 1
              else if Z.even q then q else q + 1 in
    Z.sgn n * Z.shiftl q' shift.

(** Whether the nearest double is in the range of doubles. *)
Definition fits_double (n : Z) : bool := Z.abs (nearest_double n) <? 2 ^ 1024.

(** [float(n)] on an int; [None] when Python raises OverflowError. *)
Definition float_of_int (n : Z) : option pyfloat :=
  if fits_double n then Some (Fin (inject_Z (nearest_double n))) else None.

(** A parsed JSON document, as [json.loads] returns it. A number written
    without fraction and exponent is an int, any other number (NaN and
    the infinities are accepted too) a float; an object keeps its items
    as the dict lists them. *)
#[local] Unset Elimination Schemes.
Inductive json :=
| JNull
| JBool (b : bool)
| JInt (n : Z)
| JNum (x : pyfloat)
| JStr (s : string)
| JArr (items : list json)
| JObj (items : list (string * json)).
#[local] Set Elimination Schemes.

(** Outcome of code that may raise. *)
Inductive result (E A : Type) :=
| Ok (a : A)
| Err (e : E).
Arguments Ok {E A} a.
Arguments Err {E A} e.

Definition bind {E A B} (r : result E A) (k : A -> result E B) : result E B :=
  match r with
  | Ok a => k a
  | Err e => Err e
  end.

Notation "x <- r ;; k" := (bind r (fun x => k))
  (at level 100, r at next level, right associativity).

(** The exception classes the rate client distinguishes, and the two
    that it meets without naming them. *)
Inductive exn :=
| RequestException (msg : string)
| ValueError (msg : string)
| KeyError (msg : string)
| TypeError (msg : string)
| OverflowError (msg : string)
| RecursionError (msg : string).

(** Failures raised inside library code and the interpreter; the text
    they carry is the library's, see [lib_msg] below. *)
Inductive lib_failure :=
| HTTPErrorStatus (status : Z) (url : string)
| JSONDecodeFailure
| NotAContainer (v : json)
| BadSubscript (v : json)
| FloatOfBadType (v : json)
| FloatOfBadString (s : string)
| IntTooLargeForFloat
| IntDigitLimit
| RecursionLimit.

(** ** Dict and string helpers *)

Fixpoint dict_get (k : string) (items : list (string * json)) : option json :=
  match items with
  | [] => None
  | (k', v) :: rest => if decide (k' = k) then Some v else dict_get k rest
  end.

Definition dict_has (k : string) (items : list (string * json)) : bool :=
  match dict_get k items with Some _ => true | None => false end.

Definition is_str (k : string) (v : json) : bool :=
  match v with
  | JStr s => bool_decide (s = k)
  | _ => false
  end.

(** [needle in hay] for two strings. *)
Fixpoint is_substring (needle hay : string) : bool :=
  if String.prefix needle hay then true
  else match hay with
       | EmptyString => false
       | String _ rest => is_substring needle rest
       end.

(** ** Text *)

(** A Python [str] that the code only compares, joins or hands on is a
    Rocq string holding its UTF-8 encoding: equality, concatenation, the
    substring test, the replacement of one ASCII character by another
    and the order of [sorted] are the same on the encoding as on the
    code points. Where the code looks at the characters ([len], a slice,
    [strip], [isalpha], [upper]) the [str] is the list of its code
    points. *)
Definition text := list Z.

Definition byte (a : ascii) : Z := Z.of_nat (nat_of_ascii a).

Definition ascii_of_byte (b : Z) : ascii := ascii_of_nat (Z.to_nat b).

(** The code points of a UTF-8 string: the lead byte gives the number of
    bytes of a character, each further byte six more bits. What it makes
    of bytes that are no UTF-8 has no meaning. *)
Fixpoint codepoints (s : string) : text :=
  match s with
  | EmptyString => []
  | String a0 r0 =>
      let b0 := byte a0 in
      if b0 <? 0xC0 then b0 :: codepoints r0
      else
        match r0 with
        | EmptyString => [b0]
        | String a1 r1 =>
            let b1 := byte a1 - 0x80 in
            if b0 <? 0xE0 then ((b0 - 0xC0) * 64 + b1) :: codepoints r1
            else
              match r1 with
              | EmptyString => [b0]
              | String a2 r2 =>
                  let b2 := byte a2 - 0x80 in
                  if b0 <? 0xF0
                  then ((b0 - 0xE0) * 4096 + b1 * 64 + b2) :: codepoints r2
                  else
                    match r2 with
                    | EmptyString => [b0]
                    | String a3 r3 =>
                        let b3 := byte a3 - 0x80 in
                        ((b0 - 0xF0) * 262144 + b1 * 4096 + b2 * 64 + b3)
                          :: codepoints r3
                    end
              end
        end
  end.

(** The UTF-8 encoding of one code point, put before [rest]. *)
Definition utf8_char (c : Z) (rest : string) : string :=
  if c <? 0x80 then String (ascii_of_byte c) rest
  else if c <? 0x800 then
    String (ascii_of_byte (0xC0 + c / 64))
      (String (ascii_of_byte (0x80 + c mod 64)) rest)
  else if c <? 0x10000 then
    String (ascii_of_byte (0xE0 + c / 4096))
      (String (ascii_of_byte (0x80 + (c / 64) mod 64))
         (String (ascii_of_byte (0x80 + c mod 64)) rest))
  else
    String (ascii_of_byte (0xF0 + c / 262144))
      (String (ascii_of_byte (0x80 + (c / 4096) mod 64))
         (String (ascii_of_byte (0x80 + (c / 64) mod 64))
            (String (ascii_of_byte (0x80 + c mod 64)) rest))).

(** The UTF-8 encoding of a text. *)
Definition utf8 (s : text) : string := foldr utf8_char EmptyString s.

(** A code point of Unicode. *)
Definition scalar (c : Z) : Prop := 0 <= c < 0x110000.

(** [str.isspace] on one character, which is also what [str.strip]
    removes: the characters of bidirectional type WS, B or S and of
    category Zs. *)
Definition is_space (c : Z) : bool :=
  bool_decide (0x09 <= c <= 0x0D) || bool_decide (0x1C <= c <= 0x20) ||
  bool_decide (c = 0x85) || bool_decide (c = 0xA0) ||
  bool_decide (c = 0x1680) || bool_decide (0x2000 <= c <= 0x200A) ||
  bool_decide (c = 0x2028) || bool_decide (c = 0x2029) ||
  bool_decide (c = 0x202F) || bool_decide (c = 0x205F) ||
  bool_decide (c = 0x3000).

Definition is_lower (c : Z) : bool := bool_decide (97 <= c <= 122).

Definition is_upper (c : Z) : bool := bool_decide (65 <= c <= 90).

Definition is_ascii (c : Z) : bool := bool_decide (0 <= c < 128).

Definition no_chars (s : text) : bool :=
  match s with [] => true | _ => false end.

Section Unicode.

(** The character database of the interpreter beyond ASCII: whether a
    character is a letter, and what [upper] makes of it (one to three
    characters). *)
Variable unicode_isalpha : Z -> bool.
Variable unicode_upper : Z -> text.

(** [str.isalpha] on one character. *)
Definition is_alpha (c : Z) : bool :=
  if is_ascii c then is_lower c || is_upper c else unicode_isalpha c.

(** [str.upper] on one character. *)
Definition upper_char (c : Z) : text :=
  if is_ascii c then [if is_lower c then c - 32 else c] else unicode_upper c.

(** [s.upper()]: character by character. *)
Definition py_upper (s : text) : text := flat_map upper_char s.

(** [s.isalpha()]: at least one character and all of them letters. *)
Definition py_isalpha (s : text) : bool :=
  negb (no_chars s) && forallb is_alpha s.

End Unicode.

Fixpoint py_lstrip (s : text) : text :=
  match s with
  | [] => []
  | c :: rest => if is_space c then py_lstrip rest else s
  end.

Fixpoint py_rstrip (s : text) : text :=
  match s with
  | [] => []
  | c :: rest =>
      let rest' := py_rstrip rest in
      if is_space c && no_chars rest' then [] else c :: rest'
  end.

(** [s.strip()]. *)
Definition py_strip (s : text) : text := py_rstrip (py_lstrip s).

Fixpoint string_map (f : ascii -> ascii) (s : string) : string :=
  match s with
  | EmptyString => EmptyString
  | String a rest => String (f a) (string_map f rest)
  end.

Fixpoint string_forall (f : ascii -> bool) (s : string) : bool :=
  match s with
  | EmptyString => true
  | String a rest => f a && string_forall f rest
  end.

Definition is_empty (s : string) : bool :=
  match s with EmptyString => true | _ => false end.

(** [s.replace(' ', '+')]. *)
Definition replace_spaces (s : string) : string :=
  string_map (fun a => if decide (a = " "%char) then "+"%char else a) s.

(** ** Currency rate client ([src/services/forex_service.py]) *)

Module Forex.

(** What [json.loads] raises on a body: JSONDecodeError on text that is
    not JSON, a plain ValueError on an integer of more digits than the
    interpreter converts (4300 unless configured), RecursionError on a
    document nested deeper than the interpreter recurses. *)
Inductive json_failure :=
| NotJSON
| TooManyDigits
| TooDeep.

(** What one GET to the rate provider can yield: [requests.get] raises
    (no connection, timeout), or a response arrives with a status code
    and a body that parses as JSON or makes the parser raise. *)
Record response := {
  status_code : Z;
  body : result json_failure json
}.

Inductive http_outcome :=
| ConnFailed (msg : string)
| Responded (r : response).

(** The joblib cache of [get_exchange_rate], keyed by the two arguments,
    the cache of the argument-free [get_supported_currency_codes], and
    the URLs requested so far. *)
Record state := {
  fx_cache : gmap (string * string) pyfloat;
  codes_cache : option (list string);
  http_log : list string
}.

Definition init : state :=
  {| fx_cache := ∅; codes_cache := None; http_log := [] |}.

Definition log_request (url : string) (st : state) : state :=
  {| fx_cache := fx_cache st;
     codes_cache := codes_cache st;
     http_log := http_log st ++ [url] |}.

Definition store_rate (key : string * string) (rate : pyfloat) (st : state) : state :=
  {| fx_cache := <[key := rate]> (fx_cache st);
     codes_cache := codes_cache st;
     http_log := http_log st |}.

Definition store_codes (codes : list string) (st : state) : state :=
  {| fx_cache := fx_cache st;
     codes_cache := Some codes;
     http_log := http_log st |}.

(** One entry of [get_supported_currencies]; the emoji is kept as the
    list of its code points. *)
Record currency_info := {
  code : string;
  name : string;
  emoji : text;
  symbol : string
}.

Definition rate_url (from_currency : string) : string :=
  "https://api.exchangerate-api.com/v4/latest/" +:+ from_currency.

Section Client.

(** The provider: the answer to the [n]-th request of the process. *)
Variable upstream : nat -> string -> http_outcome.
(** Text of an exception raised by a library or the interpreter. *)
Variable lib_msg : lib_failure -> string.
(** [float(s)] on a string, [None] when it raises ValueError. *)
Variable float_of_str : string -> option pyfloat.
(** [str(x)] of a float, as an f-string prints it. *)
Variable str_of_float : pyfloat -> string.

(** [response.raise_for_status()]: HTTPError, a RequestException, on a
    4xx or 5xx status and on no other. *)
Definition raise_for_status (url : string) (r : response) : result exn unit :=
  if bool_decide (400 <= status_code r < 600)
  then Err (RequestException (lib_msg (HTTPErrorStatus (status_code r) url)))
  else Ok tt.

(** [response.json()]: requests turns the JSONDecodeError of the parser
    into its own JSONDecodeError, a RequestException; anything else the
    parser raises passes through. *)
Definition response_json (r : response) : result exn json :=
  match body r with
  | Ok data => Ok data
  | Err NotJSON => Err (RequestException (lib_msg JSONDecodeFailure))
  | Err TooManyDigits => Err (ValueError (lib_msg IntDigitLimit))
  | Err TooDeep => Err (RecursionError (lib_msg RecursionLimit))
  end.

(** [k in v] for a string [k]. *)
Definition py_in (k : string) (v : json) : result exn bool :=
  match v with
  | JObj items => Ok (dict_has k items)
  | JArr items => Ok (existsb (is_str k) items)
  | JStr s => Ok (is_substring k s)
  | _ => Err (TypeError (lib_msg (NotAContainer v)))
  end.

(** [v[k]] for a string [k]. *)
Definition py_getitem (v : json) (k : string) : result exn json :=
  match v with
  | JObj items =>
      match dict_get k items with
      | Some x => Ok x
      | None => Err (KeyError k)
      end
  | _ => Err (TypeError (lib_msg (BadSubscript v)))
  end.

(** [float(v)]. *)
Definition py_float (v : json) : result exn pyfloat :=
  match v with
  | JNum x => Ok x
  | JInt n =>
      match float_of_int n with
      | Some x => Ok x
      | None => Err (OverflowError (lib_msg IntTooLargeForFloat))
      end
  | JBool b => Ok (Fin (if b then 1 else 0))
  | JStr s =>
      match float_of_str s with
      | Some x => Ok x
      | None => Err (ValueError (lib_msg (FloatOfBadString s)))
      end
  | _ => Err (TypeError (lib_msg (FloatOfBadType v)))
  end.

Definition not_found_msg (to_currency : string) : string :=
  "Currency " +:+ to_currency +:+ " not found in exchange rate data".

(** Lines 49-56: the checks on the parsed payload. *)
Definition rate_of_payload (data : json) (to_currency : string)
  : result exn pyfloat :=
  has_rates <- py_in "rates" data ;;
  if negb has_rates then Err (ValueError (not_found_msg to_currency))
  else
    rates <- py_getitem data "rates" ;;
    has_to <- py_in to_currency rates ;;
    if negb has_to then Err (ValueError (not_found_msg to_currency))
    else
      v <- py_getitem rates to_currency ;;
      rate <- py_float v ;;
      if float_le_zero rate
      then Err (ValueError ("Invalid exchange rate: " +:+ str_of_float rate))
      else Ok rate.

(** Lines 45-56: the body of the [try]. *)
Definition fetch_rate (o : http_outcome) (url to_currency : string)
  : result exn pyfloat :=
  match o with
  | ConnFailed msg => Err (RequestException msg)
  | Responded r =>
      _ <- raise_for_status url r ;;
      data <- response_json r ;;
      rate_of_payload data to_currency
  end.

(** Lines 57-62: the two [except] clauses; an exception of another
    class leaves the function as it is. *)
Definition translate_exn (e : exn) : exn :=
  match e with
  | RequestException msg => ValueError ("Failed to fetch exchange rate: " +:+ msg)
  | KeyError msg | ValueError msg | TypeError msg =>
      ValueError ("Invalid exchange rate response: " +:+ msg)
  | OverflowError _ | RecursionError _ => e
  end.

(** The undecorated function. *)
Definition get_exchange_rate_body (from_currency to_currency : string)
  (st : state) : result exn pyfloat * state :=
  if decide (from_currency = to_currency) then (Ok one_float, st)
  else
    let url := rate_url from_currency in
    let o := upstream (length (http_log st)) url in
    let st' := log_request url st in
    match fetch_rate o url to_currency with
    | Ok rate => (Ok rate, st')
    | Err e => (Err (translate_exn e), st')
    end.

(** [@memory.cache]: a stored result is returned without running the
    body; a fresh result is stored; an exception passes through and
    nothing is stored. *)
Definition get_exchange_rate (from_currency to_currency : string)
  (st : state) : result exn pyfloat * state :=
  match fx_cache st !! (from_currency, to_currency) with
  | Some rate => (Ok rate, st)
  | None =>
      match get_exchange_rate_body from_currency to_currency st with
      | (Ok rate, st') => (Ok rate, store_rate (from_currency, to_currency) rate st')
      | (Err e, st') => (Err e, st')
      end
  end.

(** A sequence of calls, results dropped: what the process did before. *)
Fixpoint run_calls (calls : list (string * string)) (st : state) : state :=
  match calls with
  | [] => st
  | (f, t) :: rest => run_calls rest (get_exchange_rate f t st).2
  end.

(** *** Supported currencies *)

(** [pycountry.currencies.get(alpha_3=c)]: the display name, if known. *)
Variable currency_name : string -> option string.
(** babel's [get_currency_symbol(c, locale)]: a string or an exception. *)
Variable get_currency_symbol : string -> result string string.

(** The character database of the interpreter beyond ASCII. The
    letters of Unicode and their capitals lie below the private use
    planes, so [chr] at line 22 is given a code point. *)
Variable unicode_isalpha : Z -> bool.
Variable unicode_upper : Z -> text.

(** [_flag_emoji]. *)
Definition _flag_emoji (alpha_2 : text) : text :=
  if negb (bool_decide (length alpha_2 = 2%nat))
     || negb (py_isalpha unicode_isalpha alpha_2)
  then []
  else (fun c => 0x1F1E6 - 65 + c) <$> py_upper unicode_upper alpha_2.

Definition codes_url : string := "https://api.exchangerate-api.com/v4/latest/USD".

Definition is_dict (v : json) : bool :=
  match v with JObj _ => true | _ => false end.

Definition dict_keys (v : json) : list string :=
  match v with JObj items => items.*1 | _ => [] end.

(** Lines 76-82: the [try] of [get_supported_currency_codes]. *)
Definition fetch_codes_payload (o : http_outcome) : result exn json :=
  let r :=
    match o with
    | ConnFailed msg => Err (RequestException msg)
    | Responded r => _ <- raise_for_status codes_url r ;; response_json r
    end in
  match r with
  | Err (RequestException msg) => Err (ValueError ("Failed to fetch currencies: " +:+ msg))
  | other => other
  end.

(** Lines 84-87. *)
Definition codes_of_payload (data : json) : result exn (list string) :=
  has_rates <- py_in "rates" data ;;
  if negb has_rates then Err (ValueError "Invalid currency list response")
  else
    rates <- py_getitem data "rates" ;;
    if negb (is_dict rates) then Err (ValueError "Invalid currency list response")
    else Ok (merge_sort String.le (dict_keys rates)).

Definition get_supported_currency_codes_body (st : state)
  : result exn (list string) * state :=
  let o := upstream (length (http_log st)) codes_url in
  let st' := log_request codes_url st in
  (data <- fetch_codes_payload o ;; codes_of_payload data, st').

(** The memoised function. *)
Definition get_supported_currency_codes (st : state)
  : result exn (list string) * state :=
  match codes_cache st with
  | Some codes => (Ok codes, st)
  | None =>
      match get_supported_currency_codes_body st with
      | (Ok codes, st') => (Ok codes, store_codes codes st')
      | (Err e, st') => (Err e, st')
      end
  end.

(** Lines 104-107: the symbol with its two fallbacks. *)
Definition symbol_of (c : string) : string :=
  match get_currency_symbol c with
  | Ok sym => if is_empty sym then c +:+ " " else sym
  | Err _ => c +:+ " "
  end.

(** Lines 101-108: the entry built for one code. *)
Definition currency_entry (c : string) : currency_info :=
  {| code := c;
     name := match currency_name c with Some n => n | None => c end;
     emoji := if bool_decide (2 <= length (codepoints c))%nat
              then _flag_emoji (take 2 (codepoints c)) else [];
     symbol := symbol_of c |}.

Definition get_supported_currencies (st : state)
  : result exn (list currency_info) * state :=
  match get_supported_currency_codes st with
  | (Ok codes, st') => (Ok (currency_entry <$> codes), st')
  | (Err e, st') => (Err e, st')
  end.

End Client.

(** Every stored rate passed the positivity check, and a pair of equal
    codes stores 1.0. *)
Definition cache_ok (c : gmap (string * string) pyfloat) : Prop :=
  ∀ k v, c !! k = Some v →
    float_le_zero v = false ∧ (k.1 = k.2 → v = one_float).

End Forex.

(** ** Data model of a translation *)

(** Modelled from the spec: [src/datamodels.py] is missing; the fields
    are those of section 3 (MenuDish and MenuTranslation). *)
Record MenuDish := {
  dish_name : string;
  english_name : string;
  description : string;
  original_text : string;
  pronunciation : string;
  price : string;
  image_urls : option (list string)
}.

Record MenuTranslation := {
  source_language : string;
  country : option string;
  original_currency : string;
  exchange_rate_to_eur : pyfloat;
  target_currency : string;
  dishes : list MenuDish
}.

(** [dish.image_urls = None]. *)
Definition clear_images (d : MenuDish) : MenuDish :=
  {| dish_name := dish_name d;
     english_name := english_name d;
     description := description d;
     original_text := original_text d;
     pronunciation := pronunciation d;
     price := price d;
     image_urls := None |}.

Definition json_of_urls (urls : option (list string)) : json :=
  match urls with
  | None => JNull
  | Some l => JArr (JStr <$> l)
  end.

(** [dish.model_dump()]. *)
Definition model_dump (d : MenuDish) : json :=
  JObj [("name", JStr (dish_name d));
        ("english_name", JStr (english_name d));
        ("description", JStr (description d));
        ("original_text", JStr (original_text d));
        ("pronunciation", JStr (pronunciation d));
        ("price", JStr (price d));
        ("image_urls", json_of_urls (image_urls d))].

(** Reading a field of a JSON object. *)
Definition json_field (k : string) (v : json) : option json :=
  match v with
  | JObj items => dict_get k items
  | _ => None
  end.

(** ** Image search client *)

Module ImageSearch.

(** What a call of the client can raise: its own error class, or
    anything else. *)
Inductive search_exn :=
| ImageSearchError (msg : string)
| SearchFailure (msg : string).

(** Modelled from the spec: [src/services/image_search_brave.py] is
    missing. Section 4.2 gives the contract: results are memoised per
    process under the key (query, language), an upstream failure raises
    ImageSearchError. As with the joblib cache of the rate client, an
    exception stores nothing. *)
Record state := {
  cache : gmap (string * string) (list string);
  attempts : nat
}.

Definition init : state := {| cache := ∅; attempts := 0 |}.

Section Client.

(** The provider: the answer to the [n]-th search of the process, a
    list of URLs or the text of a failure. *)
Variable brave_search : nat -> string -> string -> result string (list string).

Definition cached_brave_search (query language api_key : string) (st : state)
  : result search_exn (list string) * state :=
  match cache st !! (query, language) with
  | Some urls => (Ok urls, st)
  | None =>
      match brave_search (attempts st) query language with
      | Ok urls =>
          (Ok urls,
           {| cache := <[(query, language) := urls]> (cache st);
              attempts := Datatypes.S (attempts st) |})
      | Err e =>
          (Err (ImageSearchError e),
           {| cache := cache st; attempts := Datatypes.S (attempts st) |})
      end
  end.

End Client.

End ImageSearch.

(** ** HTTP API layer ([src/app.py]) *)

Module App.

Import ImageSearch (search_exn(..)).

(** What a view function gives back to Flask: a JSON body with a status
    code, an exception that no handler caught, or an HTTP exception of
    werkzeug, which Flask answers with the status of the exception. *)
Inductive reply :=
| Reply (body : json) (status : Z)
| Uncaught (msg : string)
| Aborted (status : Z).

Definition error_body (message : string) : json :=
  JObj [("status", JStr "error"); ("message", JStr message)].

(** *** POST /api/translate *)

Record upload := {
  file_content : string;
  filename : option string
}.

(** The request as the view reads it. [request.files] is read first, at
    line 61: werkzeug parses the form there, and raises an HTTP exception
    when it refuses the body, RequestEntityTooLarge (413) for a body
    longer than the MAX_CONTENT_LENGTH that line 39 sets. [files_image]
    is the status of that exception, or the file under ["image"]. *)
Record translate_request := {
  files_image : result Z (option upload);
  form_currency : option string;
  form_model : option string
}.

Inductive save_exn :=
| ImageValidationError (msg : string)
| SaveFailure (msg : string).

Inductive translate_exn :=
| TranslationError (msg : string)
| UnexpectedError (msg : string).

(** Lines 79-95: the body of a successful answer. *)
Definition dishes_data (translation : MenuTranslation) : list json :=
  (fun dish => model_dump (clear_images dish)) <$> dishes translation.

Definition success_body (translation : MenuTranslation) : json :=
  JObj [("status", JStr "success");
        ("data",
         JObj [("source_language", JStr (source_language translation));
               ("dishes", JArr (dishes_data translation));
               ("original_currency", JStr (original_currency translation));
               ("exchange_rate_to_eur", JNum (exchange_rate_to_eur translation));
               ("target_currency", JStr (target_currency translation))])].

Section Translate.

(** The files present on disk, by path. *)
Local Abbreviation fs := (gset string).

Variable DEFAULT_TARGET_CURRENCY : string.
Variable DEFAULT_OPENAI_MODEL : string.
(** The upload validator: a saved path or an exception; it may write. *)
Variable save_uploaded_image :
  string -> option string -> fs -> result save_exn string * fs.
(** The translation client, free to touch the disk as well. *)
Variable translate_menu_image :
  string -> string -> string -> fs -> result translate_exn MenuTranslation * fs.

(** [image_path.unlink(missing_ok=True)], on a disk where removing a
    file does not fail. *)
Definition unlink (path : string) (disk : fs) : fs := disk ∖ {[path]}.

(** Lines 75-101: the second [try] with its two [except] clauses. *)
Definition translate_reply (r : result translate_exn MenuTranslation) : reply :=
  match r with
  | Ok translation => Reply (success_body translation) 200
  | Err (TranslationError e) =>
      Reply (error_body ("Translation failed: " +:+ e)) 500
  | Err (UnexpectedError _) =>
      Reply (error_body "An unexpected error occurred during translation") 500
  end.

(** The view function. A [Path] object is always true, so the [finally]
    clause unlinks whenever the validator returned. *)
Definition translate_menu (req : translate_request) (disk : fs) : reply * fs :=
  match files_image req with
  | Err status => (Aborted status, disk)
  | Ok None => (Reply (error_body "No image file provided") 400, disk)
  | Ok (Some file) =>
      let target_currency := default DEFAULT_TARGET_CURRENCY (form_currency req) in
      let model := default DEFAULT_OPENAI_MODEL (form_model req) in
      match save_uploaded_image (file_content file) (filename file) disk with
      | (Err (ImageValidationError e), disk1) => (Reply (error_body e) 400, disk1)
      | (Err (SaveFailure e), disk1) => (Uncaught e, disk1)
      | (Ok image_path, disk1) =>
          let '(r, disk2) :=
            translate_menu_image image_path target_currency model disk1 in
          (translate_reply r, unlink image_path disk2)
      end
  end.

End Translate.

(** *** GET /api/exchange-rate *)

Section ExchangeRate.

Variable upstream : nat -> string -> Forex.http_outcome.
Variable lib_msg : lib_failure -> string.
Variable float_of_str : string -> option pyfloat.
Variable str_of_float : pyfloat -> string.
Variable unicode_upper : Z -> text.

Definition missing_param_msg : string :=
  "Missing 'from' or 'to' currency parameter".

(** [request.args.get(key, "").strip().upper()], on the code points of
    the parameter. *)
Definition normalise (arg : option text) : text :=
  py_upper unicode_upper (py_strip (default [] arg)).

(** Lines 125-129: only ValueError is caught. *)
Definition rate_reply (r : result exn pyfloat) : reply :=
  match r with
  | Ok rate => Reply (JObj [("status", JStr "success"); ("rate", JNum rate)]) 200
  | Err (ValueError e) => Reply (error_body e) 400
  | Err (RequestException e) | Err (KeyError e) | Err (TypeError e)
  | Err (OverflowError e) | Err (RecursionError e) => Uncaught e
  end.

(** The view function; a query parameter is the list of its code points. *)
Definition exchange_rate (arg_from arg_to : option text) (st : Forex.state)
  : reply * Forex.state :=
  let from_currency := normalise arg_from in
  let to_currency := normalise arg_to in
  if no_chars from_currency || no_chars to_currency
  then (Reply (error_body missing_param_msg) 400, st)
  else
    let '(r, st') :=
      Forex.get_exchange_rate upstream lib_msg float_of_str str_of_float
        (utf8 from_currency) (utf8 to_currency) st in
    (rate_reply r, st').

End ExchangeRate.

(** *** POST /api/fetch-images *)

(** The body the docstring of [fetch_images] expects. A dish is reduced
    to its ["name"], absent or a string; every key of the body may be
    missing. *)
Record fetch_body := {
  body_dishes : option (list (option string));
  body_language : option string;
  body_include_images : option bool
}.

(** The value of ["images"]: per dish name, a list of URLs or null. *)
Abbreviation images := (gmap string (option (list string))).

Inductive images_reply :=
| ImagesError (message : string) (status : Z)
| ImagesOk (images_data : images)
| ImagesUncaught (e : search_exn).

(** [dish.get("name")] when it is true: a string that is not empty. *)
Definition named (dish : option string) : option string :=
  match dish with
  | Some n => if is_empty n then None else Some n
  | None => None
  end.

Definition placeholder_url (dish_name : string) : string :=
  "https://via.placeholder.com/400x300?text=" +:+ replace_spaces dish_name.

(** Lines 167-171: the entry stored after a search that returned. *)
Definition entry_of_results (dish_name : string) (search_results : list string)
  : option (list string) :=
  match search_results with
  | [] => Some [placeholder_url dish_name]
  | _ => Some search_results
  end.

(** Lines 154-157: the dict comprehension. *)
Definition null_images (dishes : list (option string)) : images :=
  foldl (fun acc dish =>
           match named dish with
           | Some n => <[n := None]> acc
           | None => acc
           end) ∅ dishes.

Section FetchImages.

(** The image-search client with a state of its own (its cache, the
    upstream's mood). *)
Context {St : Type}.
Variable cached_brave_search :
  string -> string -> string -> St -> result search_exn (list string) * St.
Variable BRAVE_API_KEY : string.

(** Lines 160-174: the loop. *)
Fixpoint fetch_loop (dishes : list (option string)) (language : string)
  (images_data : images) (s : St) : result search_exn images * St :=
  match dishes with
  | [] => (Ok images_data, s)
  | dish :: rest =>
      match named dish with
      | None => fetch_loop rest language images_data s
      | Some n =>
          match cached_brave_search n language BRAVE_API_KEY s with
          | (Ok search_results, s') =>
              fetch_loop rest language
                (<[n := entry_of_results n search_results]> images_data) s'
          | (Err (ImageSearchError _), s') =>
              fetch_loop rest language (<[n := None]> images_data) s'
          | (Err e, s') => (Err e, s')
          end
      end
  end.

(** The view function; [None] is a body that is missing or false. *)
Definition fetch_images (data : option fetch_body) (s : St) : images_reply * St :=
  match data with
  | None => (ImagesError "No JSON data provided" 400, s)
  | Some data =>
      let dishes := default [] (body_dishes data) in
      let language := default "English" (body_language data) in
      let include_images := default true (body_include_images data) in
      if negb include_images then (ImagesOk (null_images dishes), s)
      else
        match fetch_loop dishes language ∅ s with
        | (Ok images_data, s') => (ImagesOk images_data, s')
        | (Err e, s') => (ImagesUncaught e, s')
        end
  end.

End FetchImages.

(** *** GET /api/currencies and GET /status *)

(** The list of currencies is answered as it is; the view function has
    no [except] clause, so an exception of the rate client escapes. *)
Inductive currencies_reply :=
| CurrenciesOk (currencies : list Forex.currency_info)
| CurrenciesUncaught (e : exn).

Section Currencies.

Variable upstream : nat -> string -> Forex.http_outcome.
Variable lib_msg : lib_failure -> string.
Variable currency_name : string -> option string.
Variable get_currency_symbol : string -> result string string.
Variable unicode_isalpha : Z -> bool.
Variable unicode_upper : Z -> text.

Definition currencies (st : Forex.state) : currencies_reply * Forex.state :=
  match Forex.get_supported_currencies upstream lib_msg currency_name
          get_currency_symbol unicode_isalpha unicode_upper st with
  | (Ok entries, st') => (CurrenciesOk entries, st')
  | (Err e, st') => (CurrenciesUncaught e, st')
  end.

End Currencies.

Definition status : reply := Reply (JObj [("status", JStr "ok")]) 200.

End App.

(** ** Concrete collaborators used to exercise the model *)

Module Demo.

Definition lib_msg (f : lib_failure) : string :=
  match f with
  | HTTPErrorStatus _ _ => "HTTP error status"
  | JSONDecodeFailure => "body is not JSON"
  | NotAContainer _ => "argument is not iterable"
  | BadSubscript _ => "object is not subscriptable"
  | FloatOfBadType _ => "float() argument must be a string or a real number"
  | FloatOfBadString _ => "could not convert string to float"
  | IntTooLargeForFloat => "int too large to convert to float"
  | IntDigitLimit => "Exceeds the limit (4300 digits) for integer string conversion"
  | RecursionLimit => "maximum recursion depth exceeded"
  end.

(** The Latin-1 part of the character database: the letters, and what
    [upper] makes of them. *)
Definition unicode_isalpha (c : Z) : bool :=
  bool_decide (c = 0xAA) || bool_decide (c = 0xB5) || bool_decide (c = 0xBA) ||
  bool_decide (0xC0 <= c <= 0xD6) || bool_decide (0xD8 <= c <= 0xF6) ||
  bool_decide (0xF8 <= c <= 0xFF).

Definition unicode_upper (c : Z) : text :=
  if bool_decide (c = 0xB5) then [0x39C]
  else if bool_decide (c = 0xDF) then [0x53; 0x53]
  else if bool_decide (c = 0xFF) then [0x178]
  else if bool_decide (0xE0 <= c <= 0xF6) || bool_decide (0xF8 <= c <= 0xFE)
       then [c - 32]
  else [c].

Definition _flag_emoji := Forex._flag_emoji unicode_isalpha unicode_upper.

Definition float_of_str (s : string) : option pyfloat :=
  if decide (s = "nan") then Some NaN else None.

Definition str_of_float (x : pyfloat) : string :=
  match x with
  | Fin _ => "<finite>"
  | PosInf => "inf"
  | NegInf => "-inf"
  | NaN => "nan"
  end.

Definition rates_payload (target : string) (rate : pyfloat) : json :=
  JObj [("base", JStr "USD"); ("rates", JObj [(target, JNum rate)])].

Definition answer (status : Z) (data : json) : Forex.http_outcome :=
  Forex.Responded {| Forex.status_code := status; Forex.body := Ok data |}.

(** The provider always answers 200 with EUR at 0.9. *)
Definition steady (n : nat) (url : string) : Forex.http_outcome :=
  answer 200 (rates_payload "EUR" (Fin (9 # 10))).

(** The provider answers 200 with EUR at 0. *)
Definition zero_rate (n : nat) (url : string) : Forex.http_outcome :=
  answer 200 (rates_payload "EUR" (Fin 0)).




(** The body of the answer is nested deeper than the parser recurses. *)
Definition too_deep (n : nat) (url : string) : Forex.http_outcome :=
  Forex.Responded {| Forex.status_code := 200; Forex.body := Err Forex.TooDeep |}.

(** The body of the answer holds an integer of 5000 digits. *)
Definition too_many_digits (n : nat) (url : string) : Forex.http_outcome :=
  Forex.Responded
    {| Forex.status_code := 200; Forex.body := Err Forex.TooManyDigits |}.

Definition get_exchange_rate up :=
  Forex.get_exchange_rate up lib_msg float_of_str str_of_float.

(** The state after one call for USD to EUR against [steady]. *)
Definition after_first : Forex.state :=
  {| Forex.fx_cache := {[ ("USD", "EUR") := Fin (9 # 10) ]};
     Forex.codes_cache := None;
     Forex.http_log := [Forex.rate_url "USD"] |}.

(** No display name is known but the dollar's; babel knows the dollar
    sign, returns nothing for XAU and raises on XXX. *)
Definition currency_name (c : string) : option string :=
  if decide (c = "USD") then Some "US Dollar" else None.

Definition get_currency_symbol (c : string) : result string string :=
  if decide (c = "USD") then Ok "$"
  else if decide (c = "XAU") then Ok ""
  else if decide (c = "XXX") then Err "unknown currency"
  else Ok c.

Definition codes_payload : json :=
  JObj [("rates", JObj [("XXX", JNum (Fin 1)); ("USD", JNum (Fin 1));
                        ("XAU", JNum (Fin 2))])].

Definition codes_upstream (n : nat) (url : string) : Forex.http_outcome :=
  answer 200 codes_payload.

Definition after_codes : Forex.state :=
  {| Forex.fx_cache := ∅;
     Forex.codes_cache := Some ["USD"; "XAU"; "XXX"];
     Forex.http_log := [Forex.codes_url] |}.

Definition get_supported_currencies up :=
  Forex.get_supported_currencies up lib_msg currency_name get_currency_symbol
    unicode_isalpha unicode_upper.

Definition currencies up :=
  App.currencies up lib_msg currency_name get_currency_symbol
    unicode_isalpha unicode_upper.

Definition exchange_rate up :=
  App.exchange_rate up lib_msg float_of_str str_of_float unicode_upper.

(** An upload, a validator that saves it under a fixed name, and three
    translators: one that answers, two that raise. *)
Definition paella : MenuDish :=
  {| dish_name := "Paella";
     english_name := "Paella";
     description := "Spanish rice dish.";
     original_text := "Paella";
     pronunciation := "pie-AY-uh";
     price := "15.50";
     image_urls := Some ["https://example.com/paella.jpg"] |}.

Definition spanish_menu : MenuTranslation :=
  {| source_language := "Spanish";
     country := Some "Spain";
     original_currency := "EUR";
     exchange_rate_to_eur := Fin 1;
     target_currency := "EUR";
     dishes := [paella] |}.

Definition upload_request : App.translate_request :=
  {| App.files_image :=
       Ok (Some {| App.file_content := "JPEG"; App.filename := Some "test.jpg" |});
     App.form_currency := None;
     App.form_model := None |}.

Definition saved_path : string := "/tmp/upload-1.jpg".

Definition save_uploaded_image (content : string) (filename : option string)
  (disk : gset string) : result App.save_exn string * gset string :=
  (Ok saved_path, {[saved_path]} ∪ disk).

Definition translate_ok (path currency model : string) (disk : gset string)
  : result App.translate_exn MenuTranslation * gset string :=
  (Ok spanish_menu, disk).

Definition translate_crash (path currency model : string) (disk : gset string)
  : result App.translate_exn MenuTranslation * gset string :=
  (Err (App.UnexpectedError "Invalid response"), disk).

Definition translate_menu translate :=
  App.translate_menu "EUR" "gpt-4o" save_uploaded_image translate.

(** Search providers: one that times out on the first search and answers
    afterwards, one that never finds anything. *)
Definition flaky (n : nat) (query language : string) : result string (list string) :=
  match n with
  | O => Err "timeout"
  | _ => Ok ["https://img.example/soup.jpg"]
  end.

Definition no_results (n : nat) (query language : string)
  : result string (list string) := Ok [].

Definition fetch_images search :=
  App.fetch_images (ImageSearch.cached_brave_search search) "key".

Definition one_soup : App.fetch_body :=
  {| App.body_dishes := Some [Some "Soup"];
     App.body_language := None;
     App.body_include_images := None |}.

(** The search client after one search that failed. *)
Definition after_timeout : ImageSearch.state :=
  {| ImageSearch.cache := ∅; ImageSearch.attempts := 1 |}.

(** The search client after one search for the crema that found nothing. *)
Definition after_crema : ImageSearch.state :=
  {| ImageSearch.cache := {[ ("Crema Catalana", "Spanish") := [] ]};
     ImageSearch.attempts := 1 |}.

Definition two_soups : App.fetch_body :=
  {| App.body_dishes := Some [Some "Soup"; Some "Soup"];
     App.body_language := None;
     App.body_include_images := None |}.

Definition without_images : App.fetch_body :=
  {| App.body_dishes := Some [Some "Paella"; None; Some ""; Some "Flan"];
     App.body_language := Some "Spanish";
     App.body_include_images := Some false |}.

Definition paella_and_flan : App.fetch_body :=
  {| App.body_dishes := Some [None; Some "Crema Catalana"; Some ""; Some "Flan"];
     App.body_language := Some "Spanish";
     App.body_include_images := Some true |}.

End Demo.

(** The rate map of a payload: the object under ["rates"] of a payload
    that is an object. *)
Definition rate_map (data : json) : option (list (string * json)) :=
  match data with
  | JObj items =>
      match dict_get "rates" items with
      | Some (JObj rates) => Some rates
      | _ => None
      end
  | _ => None
  end.

(** A float that is zero or below, in the order of the rationals; NaN
    is not. *)
Definition at_most_zero (x : pyfloat) : Prop :=
  match x with
  | Fin q => (q <= 0)%Q
  | NegInf => True
  | PosInf | NaN => False
  end.






(** The exceptions that the [except] clauses of the rate client name. *)
Definition caught (e : exn) : Prop :=
  match e with
  | OverflowError _ | RecursionError _ => False
  | _ => True
  end.

(** The exceptions of the second [except] clause. *)
Definition payload_exn (e : exn) : Prop :=
  match e with
  | KeyError _ | ValueError _ | TypeError _ => True
  | _ => False
  end.

(** The two exceptions that pass the [except] clauses of the rate
    client: the one of [float()] on an int beyond the range of doubles,
    and the one of the parser on a document nested too deep. *)
Definition escapes (lib_msg : lib_failure -> string) (e : exn) : Prop :=
  e = OverflowError (lib_msg IntTooLargeForFloat) ∨
  e = RecursionError (lib_msg RecursionLimit).

(** The white space of Unicode, character by character. *)
Definition whitespace : list Z :=
  [0x09; 0x0A; 0x0B; 0x0C; 0x0D; 0x1C; 0x1D; 0x1E; 0x1F; 0x20; 0x85; 0xA0;
   0x1680; 0x2000; 0x2001; 0x2002; 0x2003; 0x2004; 0x2005; 0x2006; 0x2007;
   0x2008; 0x2009; 0x200A; 0x2028; 0x2029; 0x202F; 0x205F; 0x3000].

Definition white (c : Z) : bool := bool_decide (c ∈ whitespace).


(** A text without white space at either end. *)
Definition trimmed (s : text) : bool :=
  match head s, last s with
  | Some a, Some b => negb (white a) && negb (white b)
  | _, _ => true
  end.

(** The capital of a letter of the alphabet; any other character is its
    own. The alphabet: the 26 small letters, a (97) to z (122), each
    with its capital, A (65) to Z (90). *)
Definition alphabet : list (Z * Z) := zip (seqZ 97 26) (seqZ 65 26).

Fixpoint assoc (c : Z) (l : list (Z * Z)) : option Z :=
  match l with
  | [] => None
  | (k, v) :: rest => if decide (k = c) then Some v else assoc c rest
  end.

Definition capital (c : Z) : Z := default c (assoc c alphabet).

(** An ASCII text. *)
Definition ascii_text (s : text) : Prop := Forall (fun c => 0 <= c < 128) s.

(** A symbol that babel does not resolve: the call raises, or what it
    returns is the empty string. *)
Definition symbol_unresolved (get_currency_symbol : string -> result string string)
  (c : string) : Prop :=
  ∀ sym, get_currency_symbol c = Ok sym -> sym = "".

(** A search client that answers by a fixed function of query and
    language and keeps the list of the calls made to it. *)
Definition recording
  (answer : string -> string -> result ImageSearch.search_exn (list string))
  (query language api_key : string) (calls : list (string * string * string))
  : result ImageSearch.search_exn (list string) * list (string * string * string) :=
  (answer query language, calls ++ [(query, language, api_key)]).

(** The names under which the loop of [fetch_images] searches. *)
Definition named_dishes (dishes : list (option string)) : list string :=
  omap App.named dishes.

(** The cached list of codes, when there is one, is in ascending order. *)
Definition codes_cache_sorted (st : Forex.state) : Prop :=
  ∀ codes, Forex.codes_cache st = Some codes -> StronglySorted String.le codes.

(** A regional indicator symbol, U+1F1E6 to U+1F1FF. *)
Definition regional_indicator (c : Z) : Prop := 0x1F1E6 <= c <= 0x1F1FF.

(** A letter of the alphabet, capital or small. *)
Definition ascii_letter (c : Z) : Prop := 65 <= c <= 90 ∨ 97 <= c <= 122.

(** * Properties of the currency rate client *)

Section ForexFacts.

Variable upstream : nat -> string -> Forex.http_outcome.
Variable lib_msg : lib_failure -> string.
Variable float_of_str : string -> option pyfloat.
Variable str_of_float : pyfloat -> string.

Local Abbreviation get_rate :=
  (Forex.get_exchange_rate upstream lib_msg float_of_str str_of_float).
Local Abbreviation get_rate_body :=
  (Forex.get_exchange_rate_body upstream lib_msg float_of_str str_of_float).
Local Abbreviation run :=
  (Forex.run_calls upstream lib_msg float_of_str str_of_float).

Lemma append_nonempty (a : ascii) (s t : string) : String a s +:+ t ≠ "".
Proof. cbn. discriminate. Qed.

Lemma translate_exn_value (e : exn) :
  caught e -> ∃ msg, Forex.translate_exn e = ValueError msg ∧ msg ≠ "".
Proof.
  destruct e; cbn [Forex.translate_exn caught]; intros Hc; try done;
    eexists; (split; [reflexivity | apply append_nonempty]).
Qed.

Lemma translate_exn_escapes (e : exn) :
  escapes lib_msg e -> Forex.translate_exn e = e.
Proof. by intros [-> | ->]. Qed.

(** What the checks on a payload raise is an exception that the
    [except] clauses name, or the OverflowError of [float()]. *)
Lemma rate_of_payload_raises (data : json) (t : string) (e : exn) :
  Forex.rate_of_payload lib_msg float_of_str str_of_float data t = Err e ->
  caught e ∨ e = OverflowError (lib_msg IntTooLargeForFloat).
Proof.
  unfold Forex.rate_of_payload, bind.
  destruct (Forex.py_in _ _ data) as [b | e1] eqn:Hin.
  2: { intros [= <-]. left. destruct data; by simplify_eq/=. }
  destruct (negb b); [intros [= <-]; by left |].
  destruct (Forex.py_getitem _ data _) as [rates | e1] eqn:Hget.
  2: { intros [= <-]. left. destruct data; simplify_eq/=; try done.
       destruct (dict_get _ _); by simplify_eq/=. }
  destruct (Forex.py_in _ _ rates) as [b' | e1] eqn:Hin'.
  2: { intros [= <-]. left. destruct rates; by simplify_eq/=. }
  destruct (negb b'); [intros [= <-]; by left |].
  destruct (Forex.py_getitem _ rates _) as [v | e1] eqn:Hget'.
  2: { intros [= <-]. left. destruct rates; simplify_eq/=; try done.
       destruct (dict_get _ _); by simplify_eq/=. }
  destruct (Forex.py_float _ _ v) as [rate | e1] eqn:Hfloat.
  2: { intros [= <-]. destruct v; simplify_eq/=; try (by left).
       - destruct (float_of_int n); simplify_eq/=. by right.
       - destruct (float_of_str s); simplify_eq/=. by left. }
  destruct (float_le_zero rate); [intros [= <-]; by left | discriminate].
Qed.

Lemma fetch_rate_raises (o : Forex.http_outcome) (url t : string) (e : exn) :
  Forex.fetch_rate lib_msg float_of_str str_of_float o url t = Err e ->
  caught e ∨ escapes lib_msg e.
Proof.
  destruct o as [msg | r]; cbn [Forex.fetch_rate].
  { intros [= <-]. by left. }
  unfold bind, Forex.raise_for_status, Forex.response_json.
  case_bool_decide; [intros [= <-]; by left |].
  destruct (Forex.body r) as [data | [| |]].
  - intros [Hp | Hp]%rate_of_payload_raises; [by left | right; by left].
  - intros [= <-]. by left.
  - intros [= <-]. by left.
  - intros [= <-]. right. by right.
Qed.

(** What a call raises is a ValueError with a message, or one of the
    two exceptions that escape. *)
Lemma rate_call_raises (f t : string) (st st' : Forex.state) (e : exn) :
  get_rate f t st = (Err e, st') ->
  (∃ msg, e = ValueError msg ∧ msg ≠ "") ∨ escapes lib_msg e.
Proof.
  unfold Forex.get_exchange_rate.
  destruct (Forex.fx_cache st !! (f, t)); [discriminate |].
  unfold Forex.get_exchange_rate_body. case_decide; [discriminate |].
  destruct (Forex.fetch_rate _ _ _ _ _ _) as [rate | e0] eqn:Hf; [discriminate |].
  intros [= <- _]. apply fetch_rate_raises in Hf as [Hc | He].
  - left. by apply translate_exn_value.
  - right. by rewrite translate_exn_escapes.
Qed.

(** A rate that the payload checks let through is not [<= 0]. *)
Lemma rate_of_payload_positive (data : json) (t : string) (x : pyfloat) :
  Forex.rate_of_payload lib_msg float_of_str str_of_float data t = Ok x ->
  float_le_zero x = false.
Proof.
  unfold Forex.rate_of_payload, bind.
  destruct (Forex.py_in _ _ data) as [b | ?]; [| discriminate].
  destruct (negb b); [discriminate |].
  destruct (Forex.py_getitem _ data _) as [rates | ?]; [| discriminate].
  destruct (Forex.py_in _ _ rates) as [b' | ?]; [| discriminate].
  destruct (negb b'); [discriminate |].
  destruct (Forex.py_getitem _ rates _) as [v | ?]; [| discriminate].
  destruct (Forex.py_float _ _ v) as [rate | ?]; [| discriminate].
  destruct (float_le_zero rate) eqn:Hle; [discriminate |].
  by intros [= <-].
Qed.

Lemma fetch_rate_positive (o : Forex.http_outcome) (url t : string) (x : pyfloat) :
  Forex.fetch_rate lib_msg float_of_str str_of_float o url t = Ok x ->
  float_le_zero x = false.
Proof.
  destruct o as [msg | r]; cbn [Forex.fetch_rate]; [discriminate |].
  unfold bind.
  destruct (Forex.raise_for_status _ _ _); [| discriminate].
  destruct (Forex.response_json _ _); [| discriminate].
  apply rate_of_payload_positive.
Qed.

Lemma body_result_ok (f t : string) (st st' : Forex.state) (x : pyfloat) :
  get_rate_body f t st = (Ok x, st') ->
  float_le_zero x = false ∧ (f = t -> x = one_float).
Proof.
  unfold Forex.get_exchange_rate_body. case_decide as Heq.
  - intros [= <- _]. done.
  - destruct (Forex.fetch_rate _ _ _ _ _ _) as [rate | e0] eqn:Hf; [| discriminate].
    intros [= <- _]. split; [by eapply fetch_rate_positive | done].
Qed.

Lemma body_keeps_cache (f t : string) (st : Forex.state) :
  Forex.fx_cache (get_rate_body f t st).2 = Forex.fx_cache st.
Proof.
  unfold Forex.get_exchange_rate_body. case_decide; [done |].
  by destruct (Forex.fetch_rate _ _ _ _ _ _).
Qed.

Lemma cache_ok_empty : Forex.cache_ok ∅.
Proof. intros k v Hk. by rewrite lookup_empty in Hk. Qed.

(** The invariant of the cache survives every call. *)
Lemma cache_ok_step (f t : string) (st : Forex.state) :
  Forex.cache_ok (Forex.fx_cache st) ->
  Forex.cache_ok (Forex.fx_cache (get_rate f t st).2).
Proof.
  intros Hok. unfold Forex.get_exchange_rate.
  destruct (Forex.fx_cache st !! (f, t)) as [rate |] eqn:Hc; [done |].
  pose proof (body_keeps_cache f t st) as Hkeep.
  destruct (get_rate_body f t st) as [[x | e] st'] eqn:Hb; cbn in *.
  - apply body_result_ok in Hb. rewrite Hkeep.
    intros k v. rewrite lookup_insert. case_decide as Hk.
    + intros [= <-]. subst k. done.
    + apply Hok.
  - by rewrite Hkeep.
Qed.

Lemma cache_ok_run (calls : list (string * string)) (st : Forex.state) :
  Forex.cache_ok (Forex.fx_cache st) ->
  Forex.cache_ok (Forex.fx_cache (run calls st)).
Proof.
  revert st. induction calls as [| [f t] rest IH]; intros st Hok; [done |].
  cbn [Forex.run_calls]. by apply IH, cache_ok_step.
Qed.

(** Entries of the cache are never overwritten or dropped. *)
Lemma cache_entry_kept (f t : string) (st : Forex.state) k (v : pyfloat) :
  Forex.fx_cache st !! k = Some v ->
  Forex.fx_cache (get_rate f t st).2 !! k = Some v.
Proof.
  intros Hk. unfold Forex.get_exchange_rate.
  destruct (Forex.fx_cache st !! (f, t)) as [rate |] eqn:Hc; [done |].
  pose proof (body_keeps_cache f t st) as Hkeep.
  destruct (get_rate_body f t st) as [[x | e] st']; cbn in *.
  - rewrite Hkeep, lookup_insert_ne; [done | congruence].
  - by rewrite Hkeep.
Qed.

Lemma cache_entry_kept_run (calls : list (string * string)) (st : Forex.state)
  k (v : pyfloat) :
  Forex.fx_cache st !! k = Some v ->
  Forex.fx_cache (run calls st) !! k = Some v.
Proof.
  revert st. induction calls as [| [f t] rest IH]; intros st Hk; [done |].
  cbn [Forex.run_calls]. by apply IH, cache_entry_kept.
Qed.

Lemma cached_call (f t : string) (st : Forex.state) (v : pyfloat) :
  Forex.fx_cache st !! (f, t) = Some v ->
  get_rate f t st = (Ok v, st).
Proof. intros Hk. unfold Forex.get_exchange_rate. by rewrite Hk. Qed.

(** After a call that returned, its arguments are in the cache. *)
Lemma returned_is_cached (f t : string) (st st' : Forex.state) (v : pyfloat) :
  get_rate f t st = (Ok v, st') ->
  Forex.fx_cache st' !! (f, t) = Some v.
Proof.
  unfold Forex.get_exchange_rate.
  destruct (Forex.fx_cache st !! (f, t)) as [rate |] eqn:Hc.
  - by intros [= <- <-].
  - destruct (get_rate_body f t st) as [[x | e] st1]; [| discriminate].
    intros [= <- <-]. cbn. apply lookup_insert_eq.
Qed.

Lemma same_currency_call (c : string) (st : Forex.state) :
  Forex.cache_ok (Forex.fx_cache st) ->
  ∃ st', get_rate c c st = (Ok one_float, st') ∧
         Forex.http_log st' = Forex.http_log st.
Proof.
  intros Hok. unfold Forex.get_exchange_rate.
  destruct (Forex.fx_cache st !! (c, c)) as [rate |] eqn:Hc.
  - destruct (Hok _ _ Hc) as [_ Hone]. rewrite (Hone eq_refl). by exists st.
  - unfold Forex.get_exchange_rate_body. rewrite decide_True by done.
    eexists. split; [reflexivity | done].
Qed.

Lemma returned_not_le_zero (f t : string) (st st' : Forex.state) (r : pyfloat) :
  Forex.cache_ok (Forex.fx_cache st) ->
  get_rate f t st = (Ok r, st') ->
  float_le_zero r = false.
Proof.
  intros Hok. unfold Forex.get_exchange_rate.
  destruct (Forex.fx_cache st !! (f, t)) as [rate |] eqn:Hc.
  - intros [= <- _]. by destruct (Hok _ _ Hc).
  - destruct (get_rate_body f t st) as [[x | e] st1] eqn:Hb; [| discriminate].
    intros [= <- _]. by destruct (body_result_ok _ _ _ _ _ Hb).
Qed.

Lemma float_le_zero_spec (x : pyfloat) :
  float_le_zero x = true <-> at_most_zero x.
Proof.
  destruct x as [q | | |]; cbn [float_le_zero at_most_zero];
    [apply Qle_bool_iff | split; [discriminate | done] | done
     | split; [discriminate | done]].
Qed.

Lemma float_not_le_zero (x : pyfloat) :
  float_le_zero x = false <-> ¬ at_most_zero x.
Proof.
  rewrite <- float_le_zero_spec. by destruct (float_le_zero x).
Qed.




(** A payload without rate map makes the checks raise. *)
Lemma no_rate_map_raises (data : json) (t : string) :
  rate_map data = None ->
  ∃ e, Forex.rate_of_payload lib_msg float_of_str str_of_float data t = Err e ∧
       payload_exn e.
Proof.
  intros Hmap. unfold Forex.rate_of_payload.
  destruct data as [| b | n | x | s | l | items];
    cbn [Forex.py_in bind]; try (by eexists).
  - destruct (is_substring "rates" s); cbn; by eexists.
  - destruct (existsb _ l); cbn; by eexists.
  - cbn [rate_map] in Hmap. unfold dict_has.
    destruct (dict_get "rates" items) as [rates |] eqn:Hr;
      cbn [negb bind Forex.py_getitem]; [| by eexists].
    rewrite Hr. cbn [bind].
    destruct rates as [| b | n | x | s | l | rates]; try discriminate;
      cbn [Forex.py_in bind]; try (by eexists).
    + destruct (is_substring t s); cbn; by eexists.
    + destruct (existsb _ l); cbn; by eexists.
Qed.

(** The checks on a payload with a rate map. *)
Lemma rate_map_checks (data : json) (rates : list (string * json)) (t : string) :
  rate_map data = Some rates ->
  Forex.rate_of_payload lib_msg float_of_str str_of_float data t =
  match dict_get t rates with
  | None => Err (ValueError (Forex.not_found_msg t))
  | Some v =>
      rate <- Forex.py_float lib_msg float_of_str v ;;
      if float_le_zero rate
      then Err (ValueError ("Invalid exchange rate: " +:+ str_of_float rate))
      else Ok rate
  end.
Proof.
  destruct data as [| b | n | x | s | l | items]; try discriminate.
  cbn [rate_map]. destruct (dict_get "rates" items) as [found |] eqn:Hr;
    [| discriminate].
  destruct found as [| b | n | x | s | l | found]; try discriminate.
  intros [= ->]. unfold Forex.rate_of_payload.
  cbn [Forex.py_in bind]. unfold dict_has. rewrite Hr.
  cbn [negb bind Forex.py_getitem]. rewrite Hr. cbn [bind Forex.py_in].
  unfold dict_has. cbn [Forex.py_getitem].
  by destruct (dict_get t rates).
Qed.

(** A rate comes out of the checks only along one path. *)
Lemma fetch_rate_ok_inv (o : Forex.http_outcome) (url t : string) (r : pyfloat) :
  Forex.fetch_rate lib_msg float_of_str str_of_float o url t = Ok r ->
  ∃ resp data rates v,
    o = Forex.Responded resp ∧
    ¬ (400 <= Forex.status_code resp < 600) ∧
    Forex.body resp = Ok data ∧
    rate_map data = Some rates ∧
    dict_get t rates = Some v ∧
    Forex.py_float lib_msg float_of_str v = Ok r ∧
    float_le_zero r = false.
Proof.
  intros H. destruct o as [msg | resp]; [discriminate |].
  cbn [Forex.fetch_rate] in H.
  unfold Forex.raise_for_status, Forex.response_json in H.
  case_bool_decide as Hst; [discriminate |]. cbn [bind] in H.
  destruct (Forex.body resp) as [data | [| |]] eqn:Hbody; try discriminate.
  cbn [bind] in H.
  destruct (rate_map data) as [rates |] eqn:Hmap.
  2: { destruct (no_rate_map_raises data t Hmap) as (e & He & _). congruence. }
  rewrite (rate_map_checks data rates t Hmap) in H.
  destruct (dict_get t rates) as [v |] eqn:Hv; [| discriminate].
  destruct (Forex.py_float lib_msg float_of_str v) as [rate | e] eqn:Hfloat;
    cbn [bind] in H; [| discriminate].
  destruct (float_le_zero rate) eqn:Hle; [discriminate |].
  injection H as <-. by exists resp, data, rates, v.
Qed.

Lemma fetch_rate_ok_intro (resp : Forex.response) (url t : string)
  (data : json) (rates : list (string * json)) (v : json) (r : pyfloat) :
  ¬ (400 <= Forex.status_code resp < 600) ->
  Forex.body resp = Ok data ->
  rate_map data = Some rates ->
  dict_get t rates = Some v ->
  Forex.py_float lib_msg float_of_str v = Ok r ->
  float_le_zero r = false ->
  Forex.fetch_rate lib_msg float_of_str str_of_float (Forex.Responded resp) url t
  = Ok r.
Proof.
  intros Hst Hbody Hmap Hv Hfloat Hle. cbn [Forex.fetch_rate].
  unfold Forex.raise_for_status, Forex.response_json.
  rewrite bool_decide_eq_false_2 by done. rewrite Hbody. cbn [bind].
  rewrite (rate_map_checks data rates t Hmap), Hv, Hfloat. cbn [bind].
  by rewrite Hle.
Qed.



(** C2: in every state the process reaches from its start by calls of
    [get_exchange_rate], a call with two equal codes returns exactly
    1.0 and leaves the log of upstream requests as it was. *)
Theorem same_currency_rate_is_one (calls : list (string * string)) (c : string) :
  let st := run calls Forex.init in
  ∃ st', get_rate c c st = (Ok one_float, st') ∧
         Forex.http_log st' = Forex.http_log st.
Proof.
  intros st. apply same_currency_call, cache_ok_run, cache_ok_empty.
Qed.

(** C8: once a call has returned a rate, the same call again returns
    the same rate and leaves the state, with its log of upstream
    requests, untouched; and this stays so after any further calls,
    the entry is never dropped. *)
Theorem repeated_call_hits_cache (f t : string) (st st1 : Forex.state) (r : pyfloat) :
  get_rate f t st = (Ok r, st1) ->
  get_rate f t st1 = (Ok r, st1) ∧
  ∀ calls, let st2 := run calls st1 in get_rate f t st2 = (Ok r, st2).
Proof.
  intros Hfirst. apply returned_is_cached in Hfirst. split.
  - by apply cached_call.
  - intros calls st2. by apply cached_call, cache_entry_kept_run.
Qed.


End ForexFacts.



(** C8, witness: USD to EUR against a provider that answers 0.9. *)
Lemma repeated_call_hits_cache_witness :
  Demo.get_exchange_rate Demo.steady "USD" "EUR" Forex.init =
    (Ok (Fin (9 # 10)), Demo.after_first) ∧
  Demo.get_exchange_rate Demo.steady "USD" "EUR" Demo.after_first =
    (Ok (Fin (9 # 10)), Demo.after_first) ∧
  ∀ calls,
    let st2 := Forex.run_calls Demo.steady Demo.lib_msg Demo.float_of_str
                 Demo.str_of_float calls Demo.after_first in
    Demo.get_exchange_rate Demo.steady "USD" "EUR" st2 = (Ok (Fin (9 # 10)), st2).
Proof.
  assert (Demo.get_exchange_rate Demo.steady "USD" "EUR" Forex.init =
            (Ok (Fin (9 # 10)), Demo.after_first)) as Hfirst
    by (vm_compute; reflexivity).
  split; [exact Hfirst |].
  exact (repeated_call_hits_cache Demo.steady Demo.lib_msg Demo.float_of_str
           Demo.str_of_float "USD" "EUR" Forex.init Demo.after_first
           (Fin (9 # 10)) Hfirst).
Defined.

Section CurrencyFacts.

Variable upstream : nat -> string -> Forex.http_outcome.
Variable lib_msg : lib_failure -> string.
Variable currency_name : string -> option string.
Variable unicode_isalpha : Z -> bool.
Variable unicode_upper : Z -> text.

Local Abbreviation get_codes :=
  (Forex.get_supported_currency_codes upstream lib_msg).
Local Abbreviation get_currencies :=
  (fun g => Forex.get_supported_currencies upstream lib_msg currency_name g
              unicode_isalpha unicode_upper).
Local Abbreviation entry :=
  (fun g => Forex.currency_entry currency_name g unicode_isalpha unicode_upper).

Lemma symbol_fallback (g : string -> result string string) (c : string) :
  symbol_unresolved g c -> Forex.symbol_of g c = c +:+ " ".
Proof.
  intros Hun. unfold Forex.symbol_of.
  destruct (g c) as [sym | e] eqn:Hg; [| done].
  by rewrite (Hun sym Hg).
Qed.

Lemma symbol_resolved (g : string -> result string string) (c sym : string) :
  g c = Ok sym -> sym ≠ "" -> Forex.symbol_of g c = sym.
Proof.
  intros Hg Hsym. unfold Forex.symbol_of. rewrite Hg. by destruct sym.
Qed.

(** The entry of a code depends on the symbol lookup of that code only. *)
Lemma entry_local (g g' : string -> result string string) (c : string) :
  g' c = g c -> entry g' c = entry g c.
Proof.
  intros Hg. unfold Forex.currency_entry, Forex.symbol_of. by rewrite Hg.
Qed.

Lemma currencies_of_codes (g : string -> result string string)
  (st st' : Forex.state) (codes : list string) :
  get_codes st = (Ok codes, st') ->
  get_currencies g st = (Ok (entry g <$> codes), st').
Proof. intros Hc. unfold Forex.get_supported_currencies. by rewrite Hc. Qed.

(** C9: when the upstream yields the list [codes], the result has one
    entry per code, in the same order. The entry of a code carries the
    display name that pycountry knows, and the code itself when it knows
    none; it carries the symbol that babel resolves, and the code
    followed by a space when babel raises or returns the empty string.
    Under any other symbol lookup, however it fails, the list is as
    long, code, name and emoji of every entry are the same, and the
    whole entry is the same for every code on which the two lookups
    agree. *)
Theorem supported_currencies_entries (g : string -> result string string)
  (st st' : Forex.state) (codes : list string) :
  get_codes st = (Ok codes, st') ->
  ∃ entries,
    get_currencies g st = (Ok entries, st') ∧
    length entries = length codes ∧
    (∀ i c, codes !! i = Some c ->
       ∃ e, entries !! i = Some e ∧ Forex.code e = c ∧
            (∀ n, currency_name c = Some n -> Forex.name e = n) ∧
            (currency_name c = None -> Forex.name e = c) ∧
            (∀ sym, g c = Ok sym -> sym ≠ "" -> Forex.symbol e = sym) ∧
            (symbol_unresolved g c -> Forex.symbol e = c +:+ " ")) ∧
    (∀ g', ∃ entries',
       get_currencies g' st = (Ok entries', st') ∧
       length entries' = length codes ∧
       (∀ i e', entries' !! i = Some e' ->
          ∃ e, entries !! i = Some e ∧ Forex.code e' = Forex.code e ∧
               Forex.name e' = Forex.name e ∧ Forex.emoji e' = Forex.emoji e) ∧
       (∀ i c, codes !! i = Some c -> g' c = g c ->
               entries' !! i = entries !! i)).
Proof.
  intros Hc. exists (entry g <$> codes).
  split; [by apply currencies_of_codes |].
  split; [by rewrite length_fmap |]. split.
  - intros i c Hi. exists (entry g c).
    rewrite list_lookup_fmap, Hi. split; [done |]. split; [done |].
    split; [| split; [| split]].
    + intros n Hn. cbn. by rewrite Hn.
    + intros Hn. cbn. by rewrite Hn.
    + intros sym Hg Hsym. cbn. by apply symbol_resolved.
    + intros Hun. cbn. by apply symbol_fallback.
  - intros g'. exists (entry g' <$> codes).
    split; [by apply currencies_of_codes |].
    split; [by rewrite length_fmap |]. split.
    + intros i e'. rewrite !list_lookup_fmap.
      destruct (codes !! i) as [c |]; [| discriminate].
      intros [= <-]. by exists (entry g c).
    + intros i c Hi Hg. rewrite !list_lookup_fmap, Hi. cbn.
      by rewrite (entry_local g g' c Hg).
Qed.

End CurrencyFacts.

(** C9, witness: three codes, one without symbol and one on which the
    symbol lookup raises. *)
Lemma supported_currencies_entries_witness :
  Forex.get_supported_currency_codes Demo.codes_upstream Demo.lib_msg Forex.init =
    (Ok ["USD"; "XAU"; "XXX"], Demo.after_codes) ∧
  ∃ entries,
    Demo.get_supported_currencies Demo.codes_upstream Forex.init =
      (Ok entries, Demo.after_codes) ∧
    length entries = 3%nat.
Proof.
  assert (Forex.get_supported_currency_codes Demo.codes_upstream Demo.lib_msg
            Forex.init = (Ok ["USD"; "XAU"; "XXX"], Demo.after_codes)) as Hc
    by (vm_compute; reflexivity).
  split; [exact Hc |].
  destruct (supported_currencies_entries Demo.codes_upstream Demo.lib_msg
              Demo.currency_name Demo.unicode_isalpha Demo.unicode_upper
              Demo.get_currency_symbol Forex.init
              Demo.after_codes _ Hc) as (entries & Hrun & Hlen & _).
  exists entries. split; [exact Hrun | exact Hlen].
Defined.

(** * Properties of the HTTP layer *)

Section StringFacts.

Variable unicode_upper : Z -> text.

Lemma append_cons (a : ascii) (r s : string) :
  String a r +:+ s = String a (r +:+ s).
Proof. reflexivity. Qed.

Lemma append_nil (s : string) : "" +:+ s = s.
Proof. reflexivity. Qed.

(** What [strip] removes is the white space of Unicode. *)
Lemma is_space_white (c : Z) : is_space c = white c.
Proof.
  apply eq_true_iff_eq. unfold is_space, white, whitespace.
  rewrite !orb_true_iff, !bool_decide_eq_true, !elem_of_cons, elem_of_nil. lia.
Qed.

Lemma spaces_white (s : text) : forallb is_space s = forallb white s.
Proof. induction s as [| c r IH]; [done |]. cbn. by rewrite is_space_white, IH. Qed.

Lemma lstrip_spaces (s : text) :
  forallb is_space (py_lstrip s) = forallb is_space s.
Proof.
  induction s as [| a r IH]; [done |]. cbn.
  destruct (is_space a) eqn:Ha; cbn; [done | by rewrite Ha].
Qed.

Lemma rstrip_empty (s : text) :
  no_chars (py_rstrip s) = forallb is_space s.
Proof.
  induction s as [| a r IH]; [done |]. cbn. rewrite IH.
  by destruct (is_space a), (forallb is_space r).
Qed.


Lemma upper_char_ascii (c : Z) :
  0 <= c < 128 -> upper_char unicode_upper c = [capital c].
Proof.
  intros Hc. unfold upper_char, is_ascii.
  rewrite bool_decide_eq_true_2 by done. f_equal.
  assert (Forall (fun c => (if is_lower c then c - 32 else c) = capital c)
            (seqZ 0 128)) as Hall
    by (apply (bool_decide_unpack _); by vm_compute).
  rewrite Forall_forall in Hall. apply Hall, elem_of_seqZ. lia.
Qed.

(** [upper] on ASCII text: every letter becomes its capital. *)
Lemma upper_ascii (s : text) :
  ascii_text s -> py_upper unicode_upper s = capital <$> s.
Proof.
  unfold py_upper. induction 1 as [| c r Hc Hr IH]; [done |].
  cbn [flat_map fmap list_fmap]. by rewrite upper_char_ascii, IH.
Qed.

Hypothesis upper_total : ∀ c, unicode_upper c ≠ [].



Lemma lstrip_pad (pad s : text) :
  forallb is_space pad = true -> py_lstrip (pad ++ s) = py_lstrip s.
Proof.
  induction pad as [| a r IH]; [done |]. cbn.
  intros [Ha Hr]%andb_prop. rewrite Ha. by apply IH.
Qed.

Lemma lstrip_fixed (s : text) :
  match head s with Some a => is_space a = false | None => True end ->
  py_lstrip s = s.
Proof. destruct s as [| a r]; [done |]. cbn. by intros ->. Qed.

Lemma rstrip_pad (s pad : text) :
  forallb is_space pad = true -> py_rstrip (s ++ pad) = py_rstrip s.
Proof.
  intros Hpad. induction s as [| a r IH].
  - cbn [app]. pose proof (rstrip_empty pad) as He.
    rewrite Hpad in He. by destruct (py_rstrip pad).
  - cbn. by rewrite IH.
Qed.

Lemma rstrip_fixed (s : text) :
  match last s with Some a => is_space a = false | None => True end ->
  py_rstrip s = s.
Proof.
  induction s as [| a r IH]; [done |].
  destruct r as [| b r'].
  - cbn. by intros ->.
  - intros Hl. change (last (a :: b :: r')) with (last (b :: r')) in Hl.
    specialize (IH Hl).
    change (py_rstrip (a :: b :: r')) with
      (if is_space a && no_chars (py_rstrip (b :: r'))
       then [] else a :: py_rstrip (b :: r')).
    rewrite IH. cbn. by rewrite andb_false_r.
Qed.

(** White space around a trimmed text is what [strip] removes. *)
Lemma strip_padded (pad1 s pad2 : text) :
  forallb white pad1 = true ->
  forallb white pad2 = true ->
  trimmed s = true ->
  py_strip (pad1 ++ s ++ pad2) = s.
Proof.
  rewrite <- !spaces_white. intros H1 H2 Ht.
  unfold py_strip. rewrite lstrip_pad by done.
  destruct s as [| a r].
  - cbn [app]. pose proof (lstrip_spaces pad2) as Hl. rewrite H2 in Hl.
    pose proof (rstrip_empty (py_lstrip pad2)) as He. rewrite Hl in He.
    by destruct (py_rstrip (py_lstrip pad2)).
  - unfold trimmed in Ht. cbn [head] in Ht.
    destruct (last (a :: r)) as [b |] eqn:Hlast.
    + apply andb_prop in Ht as [Ha%negb_true_iff Hb%negb_true_iff].
      rewrite <- is_space_white in Ha, Hb.
      rewrite lstrip_fixed by (cbn; done).
      rewrite rstrip_pad by done. apply rstrip_fixed. by rewrite Hlast.
    + assert (is_Some (last (a :: r))) as [b Hb] by (by apply last_is_Some).
      congruence.
Qed.

(** The normalised parameter of a padded ASCII text. *)
Lemma normalise_padded_ascii (pad1 s pad2 : text) :
  forallb white pad1 = true ->
  forallb white pad2 = true ->
  trimmed s = true ->
  ascii_text s ->
  App.normalise unicode_upper (Some (pad1 ++ s ++ pad2)) = capital <$> s.
Proof.
  intros H1 H2 Ht Ha. unfold App.normalise. cbn [from_option id].
  by rewrite strip_padded, upper_ascii.
Qed.

End StringFacts.

Section Utf8Facts.

Lemma byte_of_byte (b : Z) : 0 <= b < 256 -> byte (ascii_of_byte b) = b.
Proof.
  intros Hb. unfold byte, ascii_of_byte.
  rewrite nat_ascii_embedding by lia. lia.
Qed.

(** Decoding undoes encoding, one character at a time. *)
Lemma codepoints_utf8_char (c : Z) (rest : string) :
  scalar c -> codepoints (utf8_char c rest) = c :: codepoints rest.
Proof.
  unfold scalar, utf8_char. intros Hc.
  destruct (c <? 0x80) eqn:H1; [| destruct (c <? 0x800) eqn:H2;
    [| destruct (c <? 0x10000) eqn:H3]];
    rewrite ?Z.ltb_lt, ?Z.ltb_ge in *; cbn [codepoints];
    rewrite !byte_of_byte by (Z.to_euclidean_division_equations; lia).
  - rewrite (proj2 (Z.ltb_lt _ _)) by lia. done.
  - rewrite (proj2 (Z.ltb_ge _ _)) by (Z.to_euclidean_division_equations; lia).
    rewrite (proj2 (Z.ltb_lt _ 0xE0))
      by (Z.to_euclidean_division_equations; lia).
    f_equal. Z.to_euclidean_division_equations. lia.
  - rewrite (proj2 (Z.ltb_ge _ 0xC0))
      by (Z.to_euclidean_division_equations; lia).
    rewrite (proj2 (Z.ltb_ge _ 0xE0))
      by (Z.to_euclidean_division_equations; lia).
    rewrite (proj2 (Z.ltb_lt _ 0xF0))
      by (Z.to_euclidean_division_equations; lia).
    f_equal. Z.to_euclidean_division_equations. lia.
  - rewrite (proj2 (Z.ltb_ge _ 0xC0))
      by (Z.to_euclidean_division_equations; lia).
    rewrite (proj2 (Z.ltb_ge _ 0xE0))
      by (Z.to_euclidean_division_equations; lia).
    rewrite (proj2 (Z.ltb_ge _ 0xF0))
      by (Z.to_euclidean_division_equations; lia).
    f_equal. Z.to_euclidean_division_equations. lia.
Qed.

(** The encoding loses nothing: a text is the code points of its UTF-8
    string, so two texts with the same encoding are the same. *)
Lemma codepoints_utf8 (s : text) :
  Forall scalar s -> codepoints (utf8 s) = s.
Proof.
  induction 1 as [| c r Hc Hr IH]; [done |].
  cbn [utf8 foldr]. rewrite codepoints_utf8_char by done.
  f_equal. exact IH.
Qed.

Lemma utf8_inj (s t : text) :
  Forall scalar s -> Forall scalar t -> utf8 s = utf8 t -> s = t.
Proof.
  intros Hs Ht Heq.
  rewrite <- (codepoints_utf8 s), <- (codepoints_utf8 t) by done.
  by rewrite Heq.
Qed.

(** The encoding of a text is empty when the text is. *)
Lemma utf8_empty (s : text) : is_empty (utf8 s) = no_chars s.
Proof.
  destruct s as [| c r]; [done |]. cbn [utf8 foldr no_chars].
  unfold utf8_char. by repeat case_match.
Qed.

End Utf8Facts.

Section ExchangeRateFacts.

Variable upstream : nat -> string -> Forex.http_outcome.
Variable lib_msg : lib_failure -> string.
Variable float_of_str : string -> option pyfloat.
Variable str_of_float : pyfloat -> string.
Variable unicode_upper : Z -> text.

Local Abbreviation handler :=
  (App.exchange_rate upstream lib_msg float_of_str str_of_float unicode_upper).
Local Abbreviation get_rate :=
  (Forex.get_exchange_rate upstream lib_msg float_of_str str_of_float).
Local Abbreviation upper := (py_upper unicode_upper).


End ExchangeRateFacts.



(** Lower-case codes with blanks around them are served like the plain
    codes; a no-break space is white space; a blank parameter is
    answered 400 without a request. *)
Example exchange_rate_lowercase :
  Demo.exchange_rate Demo.steady (Some (codepoints " usd"))
    (Some (codepoints "eur  ")) Forex.init =
  Demo.exchange_rate Demo.steady (Some (codepoints "USD"))
    (Some (codepoints "EUR")) Forex.init.
Proof. vm_compute. reflexivity. Qed.

Example exchange_rate_blank :
  Demo.exchange_rate Demo.steady (Some (codepoints "   "))
    (Some (codepoints "EUR")) Forex.init =
  (App.Reply (App.error_body App.missing_param_msg) 400, Forex.init).
Proof. vm_compute. reflexivity. Qed.

Example exchange_rate_no_break_space :
  Demo.exchange_rate Demo.steady (Some [0xA0]) (Some [0xA0]) Forex.init =
  (App.Reply (App.error_body App.missing_param_msg) 400, Forex.init).
Proof. vm_compute. reflexivity. Qed.

Section TranslateFacts.

Variable DEFAULT_TARGET_CURRENCY : string.
Variable DEFAULT_OPENAI_MODEL : string.
Variable save_uploaded_image :
  string -> option string -> gset string -> result App.save_exn string * gset string.
Variable translate_menu_image :
  string -> string -> string -> gset string ->
  result App.translate_exn MenuTranslation * gset string.

Local Abbreviation handler :=
  (App.translate_menu DEFAULT_TARGET_CURRENCY DEFAULT_OPENAI_MODEL
     save_uploaded_image translate_menu_image).

(** Once the validator has returned a path, the handler is the
    translation, its answer mapped to a reply, followed by the unlink. *)
Lemma translate_menu_saved (req : App.translate_request) (file : App.upload)
  (disk disk1 : gset string) (image_path : string) :
  App.files_image req = Ok (Some file) ->
  save_uploaded_image (App.file_content file) (App.filename file) disk =
    (Ok image_path, disk1) ->
  let run :=
    translate_menu_image image_path
      (default DEFAULT_TARGET_CURRENCY (App.form_currency req))
      (default DEFAULT_OPENAI_MODEL (App.form_model req)) disk1 in
  handler req disk = (App.translate_reply run.1, App.unlink image_path run.2).
Proof.
  intros Hfile Hsave run. unfold App.translate_menu. rewrite Hfile, Hsave.
  subst run. by destruct (translate_menu_image _ _ _ _).
Qed.

(** C3: when the validator returned a saved path, that file is gone when
    the handler returns, whatever the translation did (an answer, a
    TranslationError, any other exception); every other file is as the
    translation left it, and the reply is the one of that outcome. *)
Theorem upload_removed_on_every_path (req : App.translate_request)
  (file : App.upload) (disk disk1 : gset string) (image_path : string) :
  App.files_image req = Ok (Some file) ->
  save_uploaded_image (App.file_content file) (App.filename file) disk =
    (Ok image_path, disk1) ->
  let run :=
    translate_menu_image image_path
      (default DEFAULT_TARGET_CURRENCY (App.form_currency req))
      (default DEFAULT_OPENAI_MODEL (App.form_model req)) disk1 in
  (image_path ∉ snd (handler req disk)) ∧
  (∀ p, p ≠ image_path -> (p ∈ snd (handler req disk) ↔ p ∈ snd run)) ∧
  (handler req disk).1 =
    match run.1 with
    | Ok translation => App.Reply (App.success_body translation) 200
    | Err (App.TranslationError e) =>
        App.Reply (App.error_body ("Translation failed: " +:+ e)) 500
    | Err (App.UnexpectedError _) =>
        App.Reply
          (App.error_body "An unexpected error occurred during translation") 500
    end.
Proof.
  intros Hfile Hsave run.
  rewrite (translate_menu_saved req file disk disk1 image_path Hfile Hsave).
  fold run. cbn [fst snd]. unfold App.unlink. split.
  { rewrite elem_of_difference, elem_of_singleton. tauto. }
  split.
  { intros p Hp. rewrite elem_of_difference, elem_of_singleton. tauto. }
  by destruct run.1 as [t | [e | e]].
Qed.

Lemma dish_dump_has_no_images (d : MenuDish) :
  json_field "image_urls" (model_dump (clear_images d)) = Some JNull.
Proof. reflexivity. Qed.

(** C4: in the reply to a translation that succeeded, the dish list is as
    long as the list of the translation and every dish in it has a null
    [image_urls], whatever the dishes carried. *)
Theorem translate_reply_has_no_images (req : App.translate_request)
  (file : App.upload) (disk disk1 disk2 : gset string) (image_path : string)
  (translation : MenuTranslation) :
  App.files_image req = Ok (Some file) ->
  save_uploaded_image (App.file_content file) (App.filename file) disk =
    (Ok image_path, disk1) ->
  translate_menu_image image_path
    (default DEFAULT_TARGET_CURRENCY (App.form_currency req))
    (default DEFAULT_OPENAI_MODEL (App.form_model req)) disk1 =
    (Ok translation, disk2) ->
  ∃ body data ds,
    (handler req disk).1 = App.Reply body 200 ∧
    json_field "status" body = Some (JStr "success") ∧
    json_field "data" body = Some data ∧
    json_field "dishes" data = Some (JArr ds) ∧
    length ds = length (dishes translation) ∧
    Forall (fun d => json_field "image_urls" d = Some JNull) ds.
Proof.
  intros Hfile Hsave Hrun.
  rewrite (translate_menu_saved req file disk disk1 image_path Hfile Hsave).
  rewrite Hrun. cbn [fst snd App.translate_reply].
  eexists _, _, (App.dishes_data translation).
  split; [reflexivity |]. split; [reflexivity |]. split; [reflexivity |].
  split; [reflexivity |]. unfold App.dishes_data.
  split; [by rewrite length_fmap |].
  apply Forall_fmap, Forall_true. intros d. apply dish_dump_has_no_images.
Qed.

End TranslateFacts.

(** C3, witness: the translation raises an unexpected exception. *)
Lemma upload_removed_on_every_path_witness :
  App.files_image Demo.upload_request =
    Ok (Some {| App.file_content := "JPEG"; App.filename := Some "test.jpg" |}) ∧
  Demo.save_uploaded_image "JPEG" (Some "test.jpg") ∅ =
    (Ok Demo.saved_path, {[Demo.saved_path]}) ∧
  Demo.saved_path ∉
    snd (Demo.translate_menu Demo.translate_crash Demo.upload_request ∅).
Proof.
  assert (Demo.save_uploaded_image "JPEG" (Some "test.jpg") ∅ =
            (Ok Demo.saved_path, {[Demo.saved_path]})) as Hsave
    by (unfold Demo.save_uploaded_image; f_equal; set_solver).
  split; [reflexivity |]. split; [exact Hsave |].
  exact (proj1 (upload_removed_on_every_path "EUR" "gpt-4o"
                  Demo.save_uploaded_image Demo.translate_crash
                  Demo.upload_request _ ∅ _ Demo.saved_path eq_refl Hsave)).
Defined.

(** C4, witness: one dish that carried an image. *)
Lemma translate_reply_has_no_images_witness :
  Demo.save_uploaded_image "JPEG" (Some "test.jpg") ∅ =
    (Ok Demo.saved_path, {[Demo.saved_path]}) ∧
  ∃ body data ds,
    (Demo.translate_menu Demo.translate_ok Demo.upload_request ∅).1 =
      App.Reply body 200 ∧
    json_field "status" body = Some (JStr "success") ∧
    json_field "data" body = Some data ∧
    json_field "dishes" data = Some (JArr ds) ∧
    length ds = 1%nat ∧
    Forall (fun d => json_field "image_urls" d = Some JNull) ds.
Proof.
  assert (Demo.save_uploaded_image "JPEG" (Some "test.jpg") ∅ =
            (Ok Demo.saved_path, {[Demo.saved_path]})) as Hsave
    by (unfold Demo.save_uploaded_image; f_equal; set_solver).
  split; [exact Hsave |].
  exact (translate_reply_has_no_images "EUR" "gpt-4o"
           Demo.save_uploaded_image Demo.translate_ok
           Demo.upload_request _ ∅ _ _ Demo.saved_path Demo.spanish_menu
           eq_refl Hsave eq_refl).
Defined.

Section FetchFacts.

Import ImageSearch (search_exn(..)).

Lemma named_spec (dish : option string) (n : string) :
  App.named dish = Some n <-> dish = Some n ∧ n ≠ "".
Proof.
  destruct dish as [[| a r] |]; cbn; split.
  - discriminate.
  - intros [[= <-] Hn]. by destruct Hn.
  - intros [= <-]. by split.
  - by intros [Hd _].
  - discriminate.
  - by intros [Hd _].
Qed.

Lemma named_not_empty (dish : option string) : App.named dish ≠ Some "".
Proof. intros H. apply named_spec in H as [_ H]. done. Qed.

Local Abbreviation null_step :=
  (fun (acc : gmap string (option (list string))) (dish : option string) =>
     match App.named dish with
     | Some n => <[n := None]> acc
     | None => acc
     end).

Lemma null_fold_keeps (dishes : list (option string))
  (acc : gmap string (option (list string))) (n : string) :
  acc !! n = Some None -> foldl null_step acc dishes !! n = Some None.
Proof.
  revert acc. induction dishes as [| d rest IH]; intros acc Hacc; [done |].
  cbn [foldl]. apply IH. destruct (App.named d) as [k |]; [| done].
  rewrite lookup_insert. by case_decide.
Qed.

Lemma null_fold_named (dishes : list (option string))
  (acc : gmap string (option (list string))) (n : string) :
  Some n ∈ dishes -> n ≠ "" -> foldl null_step acc dishes !! n = Some None.
Proof.
  revert acc. induction dishes as [| d rest IH]; intros acc Hin Hn.
  - by apply elem_of_nil in Hin.
  - cbn [foldl]. apply elem_of_cons in Hin as [<- | Hin]; [| by apply IH].
    apply null_fold_keeps.
    assert (App.named (Some n) = Some n) as -> by by apply named_spec.
    apply lookup_insert_eq.
Qed.

Lemma null_fold_keys (dishes : list (option string))
  (acc : gmap string (option (list string))) (n : string) v :
  foldl null_step acc dishes !! n = Some v ->
  acc !! n = Some v ∨ (v = None ∧ Some n ∈ dishes ∧ n ≠ "").
Proof.
  revert acc. induction dishes as [| d rest IH]; intros acc; [by left |].
  cbn [foldl]. intros H. apply IH in H as [H | (-> & Hin & Hn)].
  - destruct (App.named d) as [k |] eqn:Hd; [| by left].
    rewrite lookup_insert in H. case_decide as Hk; [| by left].
    subst k. injection H as <-. apply named_spec in Hd as [-> Hn].
    right. split; [done |]. split; [apply list_elem_of_here | done].
  - right. split; [done |]. split; [by apply list_elem_of_further | done].
Qed.

Context {St : Type}.
Variable cached_brave_search :
  string -> string -> string -> St -> result search_exn (list string) * St.
Variable BRAVE_API_KEY : string.

Local Abbreviation loop := (App.fetch_loop cached_brave_search BRAVE_API_KEY).
Local Abbreviation handler := (App.fetch_images cached_brave_search BRAVE_API_KEY).

(** The loop over a list in two pieces. *)
Lemma loop_app (pre post : list (option string)) (language : string)
  (m : gmap string (option (list string))) (s : St) :
  loop (pre ++ post) language m s =
  match loop pre language m s with
  | (Ok m1, s1) => loop post language m1 s1
  | (Err e, s1) => (Err e, s1)
  end.
Proof.
  revert m s. induction pre as [| d rest IH]; intros m s; [done |].
  cbn [app App.fetch_loop]. destruct (App.named d) as [n |]; [| apply IH].
  destruct (cached_brave_search n language BRAVE_API_KEY s) as [[urls | e] s'].
  - apply IH.
  - destruct e; [apply IH | done].
Qed.

(** A dish without a name leaves no trace. *)
Lemma loop_skip (dish : option string) (rest : list (option string))
  (language : string) (m : gmap string (option (list string))) (s : St) :
  App.named dish = None ->
  loop (dish :: rest) language m s = loop rest language m s.
Proof. intros H. cbn [App.fetch_loop]. by rewrite H. Qed.

(** One step of the loop on a dish whose search raised ImageSearchError. *)
Lemma loop_search_error (n : string) (rest : list (option string))
  (language msg : string) (m : gmap string (option (list string))) (s s' : St) :
  n ≠ "" ->
  cached_brave_search n language BRAVE_API_KEY s = (Err (ImageSearchError msg), s') ->
  loop (Some n :: rest) language m s = loop rest language (<[n := None]> m) s'.
Proof.
  intros Hn Hcall. cbn [App.fetch_loop].
  assert (App.named (Some n) = Some n) as -> by by apply named_spec.
  by rewrite Hcall.
Qed.

(** One step of the loop on a dish whose search returned. *)
Lemma loop_search_ok (n : string) (rest : list (option string))
  (language : string) (urls : list string)
  (m : gmap string (option (list string))) (s s' : St) :
  n ≠ "" ->
  cached_brave_search n language BRAVE_API_KEY s = (Ok urls, s') ->
  loop (Some n :: rest) language m s =
  loop rest language (<[n := App.entry_of_results n urls]> m) s'.
Proof.
  intros Hn Hcall. cbn [App.fetch_loop].
  assert (App.named (Some n) = Some n) as -> by by apply named_spec.
  by rewrite Hcall.
Qed.

(** The entry of a name that no dish of the list carries is not touched. *)
Lemma loop_untouched (dishes : list (option string)) (language n : string)
  (m m' : gmap string (option (list string))) (s s' : St) :
  Some n ∉ dishes ->
  loop dishes language m s = (Ok m', s') ->
  m' !! n = m !! n.
Proof.
  revert m s. induction dishes as [| d rest IH]; intros m s Hnot.
  - by intros [= <- _].
  - apply not_elem_of_cons in Hnot as [Hd Hrest]. cbn [App.fetch_loop].
    destruct (App.named d) as [k |] eqn:Hk; [| by apply IH].
    assert (k ≠ n) as Hkn.
    { intros ->. apply named_spec in Hk as [-> _]. done. }
    destruct (cached_brave_search k language BRAVE_API_KEY s) as [[urls | e] s1].
    + intros H. rewrite (IH _ _ Hrest H). by apply lookup_insert_ne.
    + destruct e; [| discriminate].
      intros H. rewrite (IH _ _ Hrest H). by apply lookup_insert_ne.
Qed.

(** Two runs from maps that differ at one name only end alike: the same
    exception or, at every other name, the same entries; the client is
    left in the same state. *)
Lemma loop_frame (dishes : list (option string)) (language n : string)
  (m1 m2 : gmap string (option (list string))) (s : St) :
  (∀ k, k ≠ n -> m1 !! k = m2 !! k) ->
  match loop dishes language m1 s, loop dishes language m2 s with
  | (Ok r1, s1), (Ok r2, s2) => s1 = s2 ∧ ∀ k, k ≠ n -> r1 !! k = r2 !! k
  | (Err e1, s1), (Err e2, s2) => e1 = e2 ∧ s1 = s2
  | _, _ => False
  end.
Proof.
  revert m1 m2 s. induction dishes as [| d rest IH]; intros m1 m2 s Hagree.
  - cbn. done.
  - cbn [App.fetch_loop]. destruct (App.named d) as [j |]; [| by apply IH].
    assert (∀ v k, k ≠ n -> <[j := v]> m1 !! k = <[j := v]> m2 !! k) as Hins.
    { intros v k Hk. rewrite !lookup_insert. case_decide; [done | by apply Hagree]. }
    destruct (cached_brave_search j language BRAVE_API_KEY s) as [[urls | e] s1].
    + apply IH, Hins.
    + destruct e; [apply IH, Hins | done].
Qed.

(** A client whose only exception is ImageSearchError never makes the
    loop stop early. *)
Lemma loop_completes (dishes : list (option string)) (language : string)
  (m : gmap string (option (list string))) (s : St) :
  (∀ q l k s0 e s1, cached_brave_search q l k s0 = (Err e, s1) ->
                    ∃ msg, e = ImageSearchError msg) ->
  ∃ m' s', loop dishes language m s = (Ok m', s').
Proof.
  intros Honly. revert m s. induction dishes as [| d rest IH]; intros m s.
  - by eexists _, _.
  - cbn [App.fetch_loop]. destruct (App.named d) as [j |]; [| apply IH].
    destruct (cached_brave_search j language BRAVE_API_KEY s)
      as [[urls | e] s1] eqn:Hcall; [apply IH |].
    destruct (Honly _ _ _ _ _ _ Hcall) as [msg ->]. apply IH.
Qed.

(** No entry is ever made under the empty name. *)
Lemma loop_no_empty_key (dishes : list (option string)) (language : string)
  (m m' : gmap string (option (list string))) (s s' : St) :
  loop dishes language m s = (Ok m', s') -> m' !! "" = m !! "".
Proof.
  revert m s. induction dishes as [| d rest IH]; intros m s.
  - by intros [= <- _].
  - cbn [App.fetch_loop]. destruct (App.named d) as [k |] eqn:Hk; [| apply IH].
    assert (k ≠ "") as Hne by (intros ->; by apply named_not_empty in Hk).
    destruct (cached_brave_search k language BRAVE_API_KEY s) as [[urls | e] s1].
    + intros H. rewrite (IH _ _ H). by apply lookup_insert_ne.
    + destruct e; [| discriminate].
      intros H. rewrite (IH _ _ H). by apply lookup_insert_ne.
Qed.

(** With images asked for, the handler is the loop from the empty dict. *)
Lemma fetch_images_loop (data : App.fetch_body) (s : St) :
  App.body_include_images data ≠ Some false ->
  handler (Some data) s =
  match loop (default [] (App.body_dishes data))
          (default "English" (App.body_language data)) ∅ s with
  | (Ok images_data, s') => (App.ImagesOk images_data, s')
  | (Err e, s') => (App.ImagesUncaught e, s')
  end.
Proof.
  intros Hinc. unfold App.fetch_images.
  destruct (App.body_include_images data) as [[|] |]; cbn; done.
Qed.

(** C6 (amended): the search of one named dish of the batch raises
    ImageSearchError. Then the handler goes on with the dishes after it;
    if none of them has the same name, a reply that is given maps the
    name to null; the entries of all other names, and whether the request
    is answered at all, are what they would be with any other entry for
    this dish; and with a client that raises nothing but ImageSearchError
    the request is answered. *)
Theorem search_error_gives_null (data : App.fetch_body)
  (pre post : list (option string)) (n language msg : string)
  (m1 : gmap string (option (list string))) (s0 s1 s2 : St) :
  App.body_include_images data ≠ Some false ->
  App.body_dishes data = Some (pre ++ Some n :: post) ->
  language = default "English" (App.body_language data) ->
  n ≠ "" ->
  loop pre language ∅ s0 = (Ok m1, s1) ->
  cached_brave_search n language BRAVE_API_KEY s1 =
    (Err (ImageSearchError msg), s2) ->
  handler (Some data) s0 =
    match loop post language (<[n := None]> m1) s2 with
    | (Ok images_data, s') => (App.ImagesOk images_data, s')
    | (Err e, s') => (App.ImagesUncaught e, s')
    end ∧
  (Some n ∉ post ->
   ∀ images_data s', handler (Some data) s0 = (App.ImagesOk images_data, s') ->
                     images_data !! n = Some None) ∧
  (∀ entry,
     match loop post language (<[n := None]> m1) s2,
           loop post language (<[n := entry]> m1) s2 with
     | (Ok r1, s'), (Ok r2, s'') => s' = s'' ∧ ∀ k, k ≠ n -> r1 !! k = r2 !! k
     | (Err e1, s'), (Err e2, s'') => e1 = e2 ∧ s' = s''
     | _, _ => False
     end) ∧
  ((∀ q l k s e s', cached_brave_search q l k s = (Err e, s') ->
                    ∃ msg', e = ImageSearchError msg') ->
   ∃ images_data s', handler (Some data) s0 = (App.ImagesOk images_data, s')).
Proof.
  intros Hinc Hdishes -> Hn Hpre Hcall.
  assert (handler (Some data) s0 =
            match loop post (default "English" (App.body_language data))
                    (<[n := None]> m1) s2 with
            | (Ok images_data, s') => (App.ImagesOk images_data, s')
            | (Err e, s') => (App.ImagesUncaught e, s')
            end) as Hrun.
  { rewrite fetch_images_loop by done. rewrite Hdishes. cbn [from_option id].
    rewrite loop_app, Hpre. by rewrite (loop_search_error n post _ msg m1 s1 s2). }
  split; [exact Hrun |]. split; [| split].
  - intros Hnot images_data s'. rewrite Hrun.
    destruct (loop post _ _ s2) as [[r | e] s3] eqn:Hpost; [| discriminate].
    intros [= <- <-]. rewrite (loop_untouched _ _ _ _ _ _ _ Hnot Hpost).
    apply lookup_insert_eq.
  - intros entry. apply loop_frame. intros k Hk.
    by rewrite !lookup_insert_ne.
  - intros Honly. rewrite Hrun.
    destruct (loop_completes post (default "English" (App.body_language data))
                (<[n := None]> m1) s2 Honly) as (m' & s' & ->).
    by eexists _, _.
Qed.

End FetchFacts.

(** C5: with [include_images] false the reply maps every dish with a name
    that is not empty to null and holds nothing else; it is the same for
    any two search clients, whose states are returned as they were: the
    client is not called. *)
Theorem without_images_all_null {St1 St2 : Type}
  (client1 : string -> string -> string -> St1 ->
             result ImageSearch.search_exn (list string) * St1)
  (client2 : string -> string -> string -> St2 ->
             result ImageSearch.search_exn (list string) * St2)
  (key1 key2 : string) (data : App.fetch_body) (s1 : St1) (s2 : St2) :
  App.body_include_images data = Some false ->
  ∃ images_data : gmap string (option (list string)),
    App.fetch_images client1 key1 (Some data) s1 = (App.ImagesOk images_data, s1) ∧
    App.fetch_images client2 key2 (Some data) s2 = (App.ImagesOk images_data, s2) ∧
    (∀ n, Some n ∈ default [] (App.body_dishes data) -> n ≠ "" ->
          images_data !! n = Some None) ∧
    (∀ n v, images_data !! n = Some v ->
            v = None ∧ Some n ∈ default [] (App.body_dishes data) ∧ n ≠ "").
Proof.
  intros Hinc. exists (App.null_images (default [] (App.body_dishes data))).
  unfold App.fetch_images. rewrite Hinc. cbn [from_option id negb].
  split; [done |]. split; [done |]. unfold App.null_images. split.
  - intros n Hin Hn. by apply null_fold_named.
  - intros n v Hv. apply null_fold_keys in Hv as [Hv | Hv]; [| done].
    by rewrite lookup_empty in Hv.
Qed.

(** C5, witness: four dishes, two of them without a name, and two search
    clients that behave differently. *)
Lemma without_images_all_null_witness :
  App.body_include_images Demo.without_images = Some false ∧
  ∃ images_data : gmap string (option (list string)),
    Demo.fetch_images Demo.flaky (Some Demo.without_images) ImageSearch.init =
      (App.ImagesOk images_data, ImageSearch.init) ∧
    Demo.fetch_images Demo.no_results (Some Demo.without_images) ImageSearch.init =
      (App.ImagesOk images_data, ImageSearch.init) ∧
    images_data !! "Paella" = Some None ∧
    images_data !! "Flan" = Some None.
Proof.
  split; [reflexivity |].
  destruct (without_images_all_null
              (ImageSearch.cached_brave_search Demo.flaky)
              (ImageSearch.cached_brave_search Demo.no_results)
              "key" "key" Demo.without_images ImageSearch.init ImageSearch.init
              eq_refl) as (images_data & H1 & H2 & Hnamed & _).
  exists images_data. split; [exact H1 |]. split; [exact H2 |].
  split; apply Hnamed; try discriminate; cbn [Demo.without_images
    App.body_dishes from_option id]; repeat constructor.
Defined.

(** * The memoised search client under the loop *)

Section MemoFacts.

Import ImageSearch (search_exn(..)).

Variable brave_search : nat -> string -> string -> result string (list string).
Variable BRAVE_API_KEY : string.

Local Abbreviation search := (ImageSearch.cached_brave_search brave_search).
Local Abbreviation loop := (App.fetch_loop search BRAVE_API_KEY).
Local Abbreviation handler := (App.fetch_images search BRAVE_API_KEY).

Lemma memo_only_search_errors (q l k : string) (s s' : ImageSearch.state)
  (e : search_exn) :
  search q l k s = (Err e, s') -> ∃ msg, e = ImageSearchError msg.
Proof.
  unfold ImageSearch.cached_brave_search.
  destruct (ImageSearch.cache s !! (q, l)); [discriminate |].
  destruct (brave_search _ q l) as [urls | msg]; [discriminate |].
  intros [= <- _]. by exists msg.
Qed.

Lemma memo_hit (q l k : string) (s : ImageSearch.state) (urls : list string) :
  ImageSearch.cache s !! (q, l) = Some urls -> search q l k s = (Ok urls, s).
Proof. intros H. unfold ImageSearch.cached_brave_search. by rewrite H. Qed.

Lemma memo_returned (q l k : string) (s s' : ImageSearch.state)
  (urls : list string) :
  search q l k s = (Ok urls, s') -> ImageSearch.cache s' !! (q, l) = Some urls.
Proof.
  unfold ImageSearch.cached_brave_search.
  destruct (ImageSearch.cache s !! (q, l)) as [old |] eqn:Hc.
  - by intros [= <- <-].
  - destruct (brave_search _ q l) as [found | msg]; [| discriminate].
    intros [= <- <-]. cbn. apply lookup_insert_eq.
Qed.

(** What is stored stays stored. *)
Lemma memo_keeps (q l k : string) (s : ImageSearch.state) key
  (urls : list string) :
  ImageSearch.cache s !! key = Some urls ->
  ImageSearch.cache (search q l k s).2 !! key = Some urls.
Proof.
  intros Hkey. unfold ImageSearch.cached_brave_search.
  destruct (ImageSearch.cache s !! (q, l)) as [old |] eqn:Hc; [done |].
  destruct (brave_search _ q l) as [found | msg]; cbn; [| done].
  rewrite lookup_insert_ne; [done | congruence].
Qed.

(** Once the results for a name are stored and its entry made from them,
    the rest of the loop ends and leaves that entry as it is. *)
Lemma loop_keeps_entry (dishes : list (option string)) (language n : string)
  (urls : list string) (m : gmap string (option (list string)))
  (s : ImageSearch.state) :
  ImageSearch.cache s !! (n, language) = Some urls ->
  m !! n = Some (App.entry_of_results n urls) ->
  ∃ m' s', loop dishes language m s = (Ok m', s') ∧
           m' !! n = Some (App.entry_of_results n urls).
Proof.
  revert m s. induction dishes as [| d rest IH]; intros m s Hc Hm.
  - by eexists _, _.
  - cbn [App.fetch_loop]. destruct (App.named d) as [k |]; [| by apply IH].
    pose proof (memo_keeps k language BRAVE_API_KEY s _ _ Hc) as Hkeep.
    destruct (decide (k = n)) as [-> | Hkn].
    + rewrite (memo_hit n language BRAVE_API_KEY s urls Hc).
      apply IH; [done | apply lookup_insert_eq].
    + destruct (search k language BRAVE_API_KEY s) as [[found | e] s1] eqn:Hcall.
      * apply IH; [done | by rewrite lookup_insert_ne].
      * destruct (memo_only_search_errors _ _ _ _ _ _ Hcall) as [msg ->].
        apply IH; [done | by rewrite lookup_insert_ne].
Qed.

Lemma replace_spaces_no_space (s : string) :
  string_forall (fun a => negb (bool_decide (a = " "%char))) (replace_spaces s)
  = true.
Proof.
  unfold replace_spaces. induction s as [| a r IH]; [done |].
  cbn [string_map string_forall]. rewrite IH, andb_true_r.
  case_decide as Ha; [reflexivity | by rewrite bool_decide_eq_false_2].
Qed.

Lemma replace_spaces_length (s : string) :
  String.length (replace_spaces s) = String.length s.
Proof. unfold replace_spaces. induction s as [| a r IH]; cbn; congruence. Qed.

Lemma replace_spaces_id (s : string) :
  string_forall (fun a => negb (bool_decide (a = " "%char))) s = true ->
  replace_spaces s = s.
Proof.
  unfold replace_spaces. induction s as [| a r IH]; [done |].
  cbn [string_map string_forall]. intros [Ha Hr]%andb_prop.
  rewrite (IH Hr). apply negb_true_iff, bool_decide_eq_false in Ha.
  by rewrite decide_False.
Qed.

(** C7: with images asked for, a named dish whose search returns the
    empty list gets, in the reply, the one-element list holding the
    placeholder URL, which ends in the dish name with every space turned
    into a plus sign; a dish without a name, or with the empty one, is
    passed over, and nothing is stored under the empty name. *)
Theorem empty_results_give_placeholder (data : App.fetch_body)
  (pre post : list (option string)) (n language : string)
  (m1 : gmap string (option (list string))) (s0 s1 s2 : ImageSearch.state) :
  App.body_include_images data ≠ Some false ->
  App.body_dishes data = Some (pre ++ Some n :: post) ->
  language = default "English" (App.body_language data) ->
  n ≠ "" ->
  loop pre language ∅ s0 = (Ok m1, s1) ->
  search n language BRAVE_API_KEY s1 = (Ok [], s2) ->
  (∃ images_data s',
     handler (Some data) s0 = (App.ImagesOk images_data, s') ∧
     images_data !! n = Some (Some [App.placeholder_url n]) ∧
     images_data !! "" = None) ∧
  App.placeholder_url n =
    "https://via.placeholder.com/400x300?text=" +:+ replace_spaces n ∧
  string_forall (fun a => negb (bool_decide (a = " "%char))) (replace_spaces n)
    = true ∧
  String.length (replace_spaces n) = String.length n ∧
  (∀ dish l1 l2 m s, App.named dish = None ->
     loop (l1 ++ dish :: l2) language m s = loop (l1 ++ l2) language m s).
Proof.
  intros Hinc Hdishes -> Hn Hpre Hcall.
  split; [| split; [done | split; [apply replace_spaces_no_space |
                                   split; [apply replace_spaces_length |]]]].
  - destruct (loop_keeps_entry post (default "English" (App.body_language data))
                n [] (<[n := App.entry_of_results n []]> m1) s2)
      as (m' & s' & Hpost & Hentry).
    { by eapply memo_returned. }
    { apply lookup_insert_eq. }
    exists m', s'. rewrite fetch_images_loop by done. rewrite Hdishes.
    cbn [from_option id]. rewrite loop_app, Hpre.
    rewrite (loop_search_ok _ _ n post _ [] m1 s1 s2 Hn Hcall), Hpost.
    split; [done |]. split; [exact Hentry |].
    assert (m1 !! "" = None) as Hm1.
    { rewrite (loop_no_empty_key _ _ _ _ _ _ _ _ Hpre). apply lookup_empty. }
    rewrite (loop_no_empty_key _ _ _ _ _ _ _ _ Hpost).
    rewrite lookup_insert_ne by done. exact Hm1.
  - intros dish l1 l2 m s Hskip. rewrite !loop_app.
    destruct (loop l1 _ m s) as [[r | e] s3]; [| done].
    by apply loop_skip.
Qed.

End MemoFacts.

(** C6, witness: one dish, and the search for it times out. *)
Lemma search_error_gives_null_witness :
  ImageSearch.cached_brave_search Demo.flaky "Soup" "English" "key"
    ImageSearch.init =
    (Err (ImageSearch.ImageSearchError "timeout"), Demo.after_timeout) ∧
  ∃ images_data s',
    Demo.fetch_images Demo.flaky (Some Demo.one_soup) ImageSearch.init =
      (App.ImagesOk images_data, s') ∧
    images_data !! "Soup" = Some None.
Proof.
  assert (ImageSearch.cached_brave_search Demo.flaky "Soup" "English" "key"
            ImageSearch.init =
          (Err (ImageSearch.ImageSearchError "timeout"), Demo.after_timeout))
    as Hcall by reflexivity.
  split; [exact Hcall |].
  destruct (search_error_gives_null
              (ImageSearch.cached_brave_search Demo.flaky) "key"
              Demo.one_soup [] [] "Soup" "English" "timeout" ∅
              ImageSearch.init ImageSearch.init Demo.after_timeout)
    as (_ & Hnull & _ & Hanswer);
    [discriminate | reflexivity | reflexivity | discriminate | reflexivity
     | exact Hcall |].
  destruct (Hanswer (fun q l k s e s' =>
                       memo_only_search_errors Demo.flaky q l k s s' e))
    as (images_data & s' & Hrun).
  exists images_data, s'. split; [exact Hrun |].
  apply (Hnull (proj1 (elem_of_nil (Some "Soup"))) images_data s' Hrun).
Defined.

(** C6, counterexample: two dishes of one name; the search for the first
    raises ImageSearchError, the search for the second returns, and the
    reply maps the name to what the second found, not to null. *)
Lemma duplicate_name_masks_error :
  ImageSearch.cached_brave_search Demo.flaky "Soup" "English" "key"
    ImageSearch.init =
    (Err (ImageSearch.ImageSearchError "timeout"), Demo.after_timeout) ∧
  ∃ images_data s',
    Demo.fetch_images Demo.flaky (Some Demo.two_soups) ImageSearch.init =
      (App.ImagesOk images_data, s') ∧
    images_data !! "Soup" = Some (Some ["https://img.example/soup.jpg"]) ∧
    images_data !! "Soup" ≠ Some None.
Proof.
  split; [reflexivity |].
  exists {[ "Soup" := Some ["https://img.example/soup.jpg"] ]},
    {| ImageSearch.cache :=
         {[ ("Soup", "English") := ["https://img.example/soup.jpg"] ]};
       ImageSearch.attempts := 2 |}.
  split; [vm_compute; reflexivity |].
  split; [vm_compute; reflexivity | vm_compute; discriminate].
Qed.

(** C7, witness: the search for the second of four dishes finds nothing. *)
Lemma empty_results_give_placeholder_witness :
  ImageSearch.cached_brave_search Demo.no_results "Crema Catalana" "Spanish"
    "key" ImageSearch.init = (Ok [], Demo.after_crema) ∧
  ∃ images_data s',
    Demo.fetch_images Demo.no_results (Some Demo.paella_and_flan)
      ImageSearch.init = (App.ImagesOk images_data, s') ∧
    images_data !! "Crema Catalana" =
      Some (Some [App.placeholder_url "Crema Catalana"]) ∧
    App.placeholder_url "Crema Catalana" =
      "https://via.placeholder.com/400x300?text=Crema+Catalana".
Proof.
  assert (ImageSearch.cached_brave_search Demo.no_results "Crema Catalana"
            "Spanish" "key" ImageSearch.init = (Ok [], Demo.after_crema))
    as Hcall by (vm_compute; reflexivity).
  split; [exact Hcall |].
  destruct (empty_results_give_placeholder Demo.no_results "key"
              Demo.paella_and_flan [None] [Some ""; Some "Flan"]
              "Crema Catalana" "Spanish" ∅
              ImageSearch.init ImageSearch.init Demo.after_crema)
    as ((images_data & s' & Hrun & Hentry & _) & _);
    [discriminate | reflexivity | reflexivity | discriminate | reflexivity
     | exact Hcall |].
  exists images_data, s'. split; [exact Hrun |]. split; [exact Hentry |].
  reflexivity.
Defined.

(** * The model at work *)

Example flag_of_us : Demo._flag_emoji (codepoints "us") = [0x1F1FA; 0x1F1F8].
Proof. vm_compute. reflexivity. Qed.

Example flag_of_digits : Demo._flag_emoji (codepoints "4x") = [].
Proof. vm_compute. reflexivity. Qed.

(** Two letters beyond ASCII: the e with acute accent gives a character
    that is no regional indicator, the sharp s becomes two capitals. *)
Example flag_of_accented : Demo._flag_emoji [0xE9; 0x61] = [0x1F26E; 0x1F1E6].
Proof. vm_compute. reflexivity. Qed.

Example flag_of_sharp_s :
  Demo._flag_emoji [0xDF; 0x61] = [0x1F1F8; 0x1F1F8; 0x1F1E6].
Proof. vm_compute. reflexivity. Qed.

(** A character of two bytes, one of three and one of four. *)
Example codepoints_of_utf8 :
  codepoints (utf8 [0x24; 0xE9; 0x20AC; 0x1F1EA]) = [0x24; 0xE9; 0x20AC; 0x1F1EA] ∧
  String.length (utf8 [0x24; 0xE9; 0x20AC; 0x1F1EA]) = 10%nat.
Proof. split; vm_compute; reflexivity. Qed.

(** The largest int that [float()] converts, and the first it refuses. *)
Example double_range :
  fits_double (2 ^ 1024 - 2 ^ 970 - 1) = true ∧
  fits_double (2 ^ 1024 - 2 ^ 970) = false ∧
  nearest_double (2 ^ 53 + 1) = 2 ^ 53 ∧
  nearest_double (2 ^ 53 + 3) = 2 ^ 53 + 4.
Proof. repeat split; vm_compute; reflexivity. Qed.

Example deep_payload_escapes :
  (Demo.get_exchange_rate Demo.too_deep "USD" "EUR" Forex.init).1 =
  Err (RecursionError "maximum recursion depth exceeded").
Proof. vm_compute. reflexivity. Qed.

Example long_integer_is_reported :
  (Demo.get_exchange_rate Demo.too_many_digits "USD" "EUR" Forex.init).1 =
  Err (ValueError
         "Invalid exchange rate response: Exceeds the limit (4300 digits) for integer string conversion").
Proof. vm_compute. reflexivity. Qed.

Example currencies_listed :
  (Demo.get_supported_currencies Demo.codes_upstream Forex.init).1 =
  Ok [ {| Forex.code := "USD"; Forex.name := "US Dollar";
          Forex.emoji := [0x1F1FA; 0x1F1F8]; Forex.symbol := "$" |};
       {| Forex.code := "XAU"; Forex.name := "XAU";
          Forex.emoji := [0x1F1FD; 0x1F1E6]; Forex.symbol := "XAU " |};
       {| Forex.code := "XXX"; Forex.name := "XXX";
          Forex.emoji := [0x1F1FD; 0x1F1FD]; Forex.symbol := "XXX " |} ].
Proof. vm_compute. reflexivity. Qed.

Example server_error_is_reported :
  (Demo.get_exchange_rate (fun _ _ => Demo.answer 503 JNull) "USD" "EUR"
     Forex.init).1 =
  Err (ValueError "Failed to fetch exchange rate: HTTP error status").
Proof. vm_compute. reflexivity. Qed.

Example missing_target_is_reported :
  (Demo.get_exchange_rate Demo.steady "USD" "JPY" Forex.init).1 =
  Err (ValueError
         "Invalid exchange rate response: Currency JPY not found in exchange rate data").
Proof. vm_compute. reflexivity. Qed.

Example translation_answer_without_file :
  Demo.translate_menu Demo.translate_ok
    {| App.files_image := Ok None; App.form_currency := None;
       App.form_model := None |} ∅ =
  (App.Reply (App.error_body "No image file provided") 400, ∅).
Proof. reflexivity. Qed.

Example translation_of_oversized_upload :
  Demo.translate_menu Demo.translate_ok
    {| App.files_image := Err 413; App.form_currency := None;
       App.form_model := None |} ∅ =
  (App.Aborted 413, ∅).
Proof. reflexivity. Qed.

Example images_with_placeholder :
  (Demo.fetch_images Demo.no_results (Some Demo.paella_and_flan)
     ImageSearch.init).1 =
  App.ImagesOk
    {[ "Crema Catalana" :=
         Some ["https://via.placeholder.com/400x300?text=Crema+Catalana"];
       "Flan" := Some ["https://via.placeholder.com/400x300?text=Flan"] ]}.
Proof. vm_compute. reflexivity. Qed.

(** * Further properties of the currency rate client *)

Section FlagFacts.

Variable unicode_isalpha : Z -> bool.
Variable unicode_upper : Z -> text.

Local Abbreviation flag := (Forex._flag_emoji unicode_isalpha unicode_upper).
Local Abbreviation upper := (py_upper unicode_upper).
Local Abbreviation isalpha := (py_isalpha unicode_isalpha).

Lemma ascii_letter_alpha (c : Z) :
  ascii_letter c -> is_alpha unicode_isalpha c = true.
Proof.
  intros Hc. unfold is_alpha, is_ascii, is_lower, is_upper.
  rewrite bool_decide_eq_true_2 by (unfold ascii_letter in Hc; lia).
  apply orb_true_iff. rewrite !bool_decide_eq_true.
  unfold ascii_letter in Hc. lia.
Qed.

(** The capital of a letter is one of the 26 capitals. *)
Lemma capital_of_letter (c : Z) : ascii_letter c -> 65 <= capital c <= 90.
Proof.
  intros Hc.
  assert (Forall (fun c => ascii_letter c -> 65 <= capital c <= 90)
            (seqZ 0 128)) as Hall.
  { apply Forall_forall. intros x Hx%elem_of_seqZ Hl.
    assert (Forall (fun c => (65 <=? c) && (c <=? 90) || (97 <=? c) && (c <=? 122)
                             = true -> 65 <= capital c <= 90)
              (seqZ 0 128)) as Hb
      by (apply (bool_decide_unpack _); by vm_compute).
    rewrite Forall_forall in Hb. apply Hb; [apply elem_of_seqZ; lia |].
    unfold ascii_letter in Hl. apply orb_true_iff.
    rewrite !andb_true_iff, !Z.leb_le. lia. }
  rewrite Forall_forall in Hall. apply Hall; [| done].
  apply elem_of_seqZ. unfold ascii_letter in Hc. lia.
Qed.

(** What two letters are for [_flag_emoji]. *)
Lemma flag_of_letters (s : text) :
  length s = 2%nat -> isalpha s = true ->
  flag s = (fun c => 0x1F1E6 - 65 + c) <$> upper s.
Proof.
  intros Hlen Halpha. unfold Forex._flag_emoji.
  by rewrite bool_decide_eq_true_2, Halpha.
Qed.

(** Two letters of the alphabet give the regional indicators of their
    capitals. *)
Lemma flag_of_ascii_letters (a b : Z) :
  ascii_letter a -> ascii_letter b ->
  flag [a; b] = [0x1F1E6 + (capital a - 65); 0x1F1E6 + (capital b - 65)] ∧
  Forall regional_indicator (flag [a; b]).
Proof.
  intros Ha Hb.
  assert (flag [a; b] =
            [0x1F1E6 + (capital a - 65); 0x1F1E6 + (capital b - 65)]) as ->.
  { rewrite flag_of_letters.
    - rewrite upper_ascii
        by (repeat constructor; unfold ascii_letter in *; lia).
      cbn [fmap list_fmap]. f_equal; [| f_equal]; lia.
    - done.
    - unfold py_isalpha. cbn [no_chars negb forallb andb].
      by rewrite !ascii_letter_alpha. }
  split; [done |].
  pose proof (capital_of_letter a Ha). pose proof (capital_of_letter b Hb).
  repeat constructor; unfold regional_indicator; lia.
Qed.

(** Without two letters there is no flag. *)
Lemma flag_needs_letters (s : text) :
  flag s ≠ [] -> length s = 2%nat ∧ isalpha s = true.
Proof.
  unfold Forex._flag_emoji.
  case_bool_decide as Hlen; [| done].
  destruct (isalpha s); [done |]. by rewrite orb_true_r.
Qed.

(** X1: [_flag_emoji] returns the empty string unless its argument is
    made of exactly two characters that are letters. On two letters of
    the alphabet, capital or small, it returns exactly two regional
    indicator symbols, those of the two capitals. On two letters of any
    kind it returns the characters of [upper] of its argument, each
    moved up by the same distance. *)
Theorem flag_emoji_shape (alpha_2 : text) :
  (flag alpha_2 ≠ [] -> length alpha_2 = 2%nat ∧ isalpha alpha_2 = true) ∧
  (∀ a b, alpha_2 = [a; b] -> ascii_letter a -> ascii_letter b ->
     flag alpha_2 = [0x1F1E6 + (capital a - 65); 0x1F1E6 + (capital b - 65)] ∧
     Forall regional_indicator (flag alpha_2)) ∧
  (length alpha_2 = 2%nat -> isalpha alpha_2 = true ->
   flag alpha_2 = (fun c => 0x1F1E6 - 65 + c) <$> upper alpha_2).
Proof.
  split; [apply flag_needs_letters | split; [| apply flag_of_letters]].
  intros a b -> Ha Hb. by apply flag_of_ascii_letters.
Qed.

(** X2: on two letters the flag depends on [upper] of the argument only,
    so not on the case of the letters, and tells apart any two arguments
    that differ otherwise. *)
Theorem flag_emoji_identifies_code (s t : text) :
  length s = 2%nat -> isalpha s = true ->
  length t = 2%nat -> isalpha t = true ->
  flag s = flag t <-> upper s = upper t.
Proof.
  intros Hs Has Ht Hat. rewrite !flag_of_letters by done. split.
  - assert (Inj (=) (=) (fun c : Z => 0x1F1E6 - 65 + c)) by (intros x y; lia).
    apply (inj (fmap _)).
  - by intros ->.
Qed.

End FlagFacts.

(** X2, witness: the code of Spain in two spellings. *)
Lemma flag_emoji_identifies_code_witness :
  length (codepoints "es") = 2%nat ∧
  py_isalpha Demo.unicode_isalpha (codepoints "es") = true ∧
  length (codepoints "ES") = 2%nat ∧
  py_isalpha Demo.unicode_isalpha (codepoints "ES") = true ∧
  (Demo._flag_emoji (codepoints "es") = Demo._flag_emoji (codepoints "ES") <->
   py_upper Demo.unicode_upper (codepoints "es") =
   py_upper Demo.unicode_upper (codepoints "ES")).
Proof.
  split; [reflexivity |]. split; [reflexivity |]. split; [reflexivity |].
  split; [reflexivity |].
  apply (flag_emoji_identifies_code Demo.unicode_isalpha Demo.unicode_upper
           (codepoints "es") (codepoints "ES")); reflexivity.
Defined.

Section RateFacts.

Variable upstream : nat -> string -> Forex.http_outcome.
Variable lib_msg : lib_failure -> string.
Variable float_of_str : string -> option pyfloat.
Variable str_of_float : pyfloat -> string.

Local Abbreviation get_rate :=
  (Forex.get_exchange_rate upstream lib_msg float_of_str str_of_float).
Local Abbreviation get_rate_body :=
  (Forex.get_exchange_rate_body upstream lib_msg float_of_str str_of_float).
Local Abbreviation fetch :=
  (Forex.fetch_rate lib_msg float_of_str str_of_float).

(** The body run on two different codes: one request, then the checks. *)
Lemma body_on_different (f t : string) (st : Forex.state) :
  f ≠ t ->
  get_rate_body f t st =
  (match fetch (upstream (length (Forex.http_log st)) (Forex.rate_url f))
           (Forex.rate_url f) t with
   | Ok rate => Ok rate
   | Err e => Err (Forex.translate_exn e)
   end, Forex.log_request (Forex.rate_url f) st).
Proof.
  intros Hne. unfold Forex.get_exchange_rate_body.
  rewrite decide_False by done. cbv zeta. by destruct (fetch _ _ _).
Qed.

Lemma translate_exn_prefix (e : exn) :
  caught e ->
  ∃ msg, Forex.translate_exn e =
           ValueError ("Failed to fetch exchange rate: " +:+ msg) ∨
         Forex.translate_exn e =
           ValueError ("Invalid exchange rate response: " +:+ msg).
Proof. destruct e as [m | m | m | m | m | m]; try done; exists m; cbn; auto. Qed.

(** X3: a call of [get_exchange_rate] that raises has two different
    codes and nothing cached for them, has sent exactly one request and
    stores nothing: the same call again asks the provider again. What it
    raises is a ValueError whose message starts with one of the two
    prefixes of the [except] clauses, or one of the two exceptions that
    no clause names: the OverflowError of [float()] on an int beyond the
    range of doubles, the RecursionError of the parser. *)
Theorem failed_rate_call_stores_nothing (f t : string) (st st' : Forex.state)
  (e : exn) :
  get_rate f t st = (Err e, st') ->
  f ≠ t ∧
  ((∃ msg, e = ValueError ("Failed to fetch exchange rate: " +:+ msg) ∨
           e = ValueError ("Invalid exchange rate response: " +:+ msg)) ∨
   e = OverflowError (lib_msg IntTooLargeForFloat) ∨
   e = RecursionError (lib_msg RecursionLimit)) ∧
  st' = Forex.log_request (Forex.rate_url f) st ∧
  Forex.fx_cache st' !! (f, t) = None.
Proof.
  unfold Forex.get_exchange_rate.
  destruct (Forex.fx_cache st !! (f, t)) as [rate |] eqn:Hc; [discriminate |].
  destruct (decide (f = t)) as [-> | Hne].
  { unfold Forex.get_exchange_rate_body. rewrite decide_True by done.
    discriminate. }
  rewrite body_on_different by done.
  destruct (fetch _ _ _) as [rate | e0] eqn:Hfetch; [discriminate |].
  intros [= <- <-]. split; [done |]. split; [| split; [done | exact Hc]].
  destruct (fetch_rate_raises lib_msg float_of_str str_of_float _ _ _ _ Hfetch)
    as [Hcaught | Hesc].
  - left. by apply translate_exn_prefix.
  - right. rewrite (translate_exn_escapes lib_msg e0 Hesc). exact Hesc.
Qed.

(** X4: a call of [get_exchange_rate] sends no request when its pair is
    cached or its codes are equal and exactly one, to the URL of the
    source code, otherwise; it leaves the cached codes and every cache
    entry of another pair as they were, and answers a cached pair from
    the cache with the state unchanged. *)
Theorem rate_call_frame (f t : string) (st : Forex.state) :
  let st' := (get_rate f t st).2 in
  Forex.codes_cache st' = Forex.codes_cache st ∧
  (∀ k, k ≠ (f, t) -> Forex.fx_cache st' !! k = Forex.fx_cache st !! k) ∧
  (∀ v, Forex.fx_cache st !! (f, t) = Some v -> get_rate f t st = (Ok v, st)) ∧
  Forex.http_log st' =
    (if bool_decide (is_Some (Forex.fx_cache st !! (f, t)) ∨ f = t)
     then Forex.http_log st
     else Forex.http_log st ++ [Forex.rate_url f]).
Proof.
  intros st'. subst st'. unfold Forex.get_exchange_rate.
  destruct (Forex.fx_cache st !! (f, t)) as [rate |] eqn:Hc.
  - cbn [snd]. split; [done |]. split; [done |].
    split; [by intros v [= ->] |].
    rewrite bool_decide_eq_true_2; [done | left; by eexists].
  - destruct (decide (f = t)) as [-> | Hne].
    + unfold Forex.get_exchange_rate_body. rewrite decide_True by done.
      cbn [snd Forex.store_rate Forex.codes_cache Forex.fx_cache Forex.http_log].
      split; [done |]. split; [by intros k Hk; rewrite lookup_insert_ne |].
      split; [discriminate |].
      rewrite bool_decide_eq_true_2; [done | by right].
    + rewrite body_on_different by done.
      assert (bool_decide (is_Some (@None pyfloat) ∨ f = t) = false) as ->.
      { apply bool_decide_eq_false. intros [[v Hv] | Heq]; [discriminate | done]. }
      destruct (fetch _ _ _) as [rate | e0];
        cbn [snd Forex.store_rate Forex.log_request Forex.codes_cache
             Forex.fx_cache Forex.http_log].
      * split; [done |]. split; [by intros k Hk; rewrite lookup_insert_ne |].
        split; [discriminate | done].
      * split; [done |]. split; [done |]. split; [discriminate | done].
Qed.

(** [float()] returns on a float, on an int within the range of
    doubles, on a Boolean and on a string that spells a float. *)
Lemma py_float_returns (v : json) (r : pyfloat) :
  Forex.py_float lib_msg float_of_str v = Ok r <->
  match v with
  | JNum x => r = x
  | JInt n => fits_double n = true ∧ r = Fin (inject_Z (nearest_double n))
  | JBool b => r = Fin (if b then 1 else 0)
  | JStr s => float_of_str s = Some r
  | _ => False
  end.
Proof.
  destruct v as [| b | n | x | s | l | items]; cbn [Forex.py_float];
    try (split; [discriminate | done]).
  - split; [by intros [= <-] | by intros ->].
  - unfold float_of_int. destruct (fits_double n).
    + split; [by intros [= <-] | by intros [_ ->]].
    + split; [discriminate | by intros [? _]].
  - split; [by intros [= <-] | by intros ->].
  - destruct (float_of_str s) as [y |].
    + split; [by intros [= <-] | by intros [= ->]].
    + split; discriminate.
Qed.

(** X5: with two different codes and nothing cached, the call returns a
    rate exactly when the provider answers with a status that is not 4xx
    or 5xx and a JSON object whose ["rates"] is an object that gives the
    target code a value that [float()] converts to a float that is not
    zero or below: a float, an int within the range of doubles, rounded
    to the nearest double, a Boolean, or a string that spells a float.
    The rate is that float, and it is stored under the pair. *)
Theorem rate_success_characterised (f t : string) (st st' : Forex.state)
  (r : pyfloat) :
  f ≠ t ->
  Forex.fx_cache st !! (f, t) = None ->
  get_rate f t st = (Ok r, st') <->
  ∃ resp items rates v,
    upstream (length (Forex.http_log st)) (Forex.rate_url f) =
      Forex.Responded resp ∧
    ¬ (400 <= Forex.status_code resp < 600) ∧
    Forex.body resp = Ok (JObj items) ∧
    dict_get "rates" items = Some (JObj rates) ∧
    dict_get t rates = Some v ∧
    match v with
    | JNum x => r = x
    | JInt n => fits_double n = true ∧ r = Fin (inject_Z (nearest_double n))
    | JBool b => r = Fin (if b then 1 else 0)
    | JStr s => float_of_str s = Some r
    | _ => False
    end ∧
    ¬ at_most_zero r ∧
    st' = Forex.store_rate (f, t) r (Forex.log_request (Forex.rate_url f) st).
Proof.
  intros Hne Hmiss. unfold Forex.get_exchange_rate. rewrite Hmiss.
  rewrite body_on_different by done. split.
  - destruct (fetch _ _ t) as [rate | e] eqn:Hfetch; [| discriminate].
    intros [= <- <-].
    destruct (fetch_rate_ok_inv lib_msg float_of_str str_of_float _ _ _ _ Hfetch)
      as (resp & data & rates & v & Ho & Hst & Hb & Hm & Hv & Hf & Hle).
    destruct data as [| b | n | x | s | l | items]; try discriminate.
    cbn [rate_map] in Hm.
    destruct (dict_get "rates" items) as [[| b | n | x | s | l | found] |] eqn:Hr;
      try discriminate.
    injection Hm as ->. apply py_float_returns in Hf.
    apply float_not_le_zero in Hle.
    by exists resp, items, rates, v.
  - intros (resp & items & rates & v & Ho & Hst & Hb & Hr & Hv & Hf & Hle & ->).
    rewrite Ho. apply py_float_returns in Hf. apply float_not_le_zero in Hle.
    rewrite (fetch_rate_ok_intro lib_msg float_of_str str_of_float
               resp _ t (JObj items) rates v r); try done.
    cbn [rate_map]. by rewrite Hr.
Qed.

End RateFacts.

(** X3, witness: the provider answers 200 with EUR at 0. *)
Lemma failed_rate_call_stores_nothing_witness :
  Demo.get_exchange_rate Demo.zero_rate "USD" "EUR" Forex.init =
    (Err (ValueError
            "Invalid exchange rate response: Invalid exchange rate: <finite>"),
     Forex.log_request (Forex.rate_url "USD") Forex.init) ∧
  Forex.fx_cache (Forex.log_request (Forex.rate_url "USD") Forex.init)
    !! ("USD", "EUR") = None.
Proof.
  assert (Demo.get_exchange_rate Demo.zero_rate "USD" "EUR" Forex.init =
            (Err (ValueError
               "Invalid exchange rate response: Invalid exchange rate: <finite>"),
             Forex.log_request (Forex.rate_url "USD") Forex.init)) as Hcall
    by (vm_compute; reflexivity).
  split; [exact Hcall |].
  exact (proj2 (proj2 (proj2
    (failed_rate_call_stores_nothing Demo.zero_rate Demo.lib_msg
       Demo.float_of_str Demo.str_of_float "USD" "EUR" Forex.init _ _ Hcall)))).
Defined.

(** X5, witness: the provider answers 200 with EUR at 0.9. *)
Lemma rate_success_characterised_witness :
  "USD" ≠ "EUR" ∧ Forex.fx_cache Forex.init !! ("USD", "EUR") = None ∧
  ∃ resp items rates v,
    Demo.steady 0 (Forex.rate_url "USD") = Forex.Responded resp ∧
    ¬ (400 <= Forex.status_code resp < 600) ∧
    Forex.body resp = Ok (JObj items) ∧
    dict_get "rates" items = Some (JObj rates) ∧
    dict_get "EUR" rates = Some v ∧
    match v with
    | JNum x => Fin (9 # 10) = x
    | JInt n =>
        fits_double n = true ∧ Fin (9 # 10) = Fin (inject_Z (nearest_double n))
    | JBool b => Fin (9 # 10) = Fin (if b then 1 else 0)
    | JStr s => Demo.float_of_str s = Some (Fin (9 # 10))
    | _ => False
    end ∧
    ¬ at_most_zero (Fin (9 # 10)) ∧
    Demo.after_first =
      Forex.store_rate ("USD", "EUR") (Fin (9 # 10))
        (Forex.log_request (Forex.rate_url "USD") Forex.init).
Proof.
  split; [discriminate |]. split; [reflexivity |].
  apply (proj1 (rate_success_characterised Demo.steady Demo.lib_msg
                  Demo.float_of_str Demo.str_of_float "USD" "EUR" Forex.init
                  Demo.after_first (Fin (9 # 10))
                  ltac:(discriminate) eq_refl)).
  vm_compute. reflexivity.
Defined.

Section CodesFacts.

Variable upstream : nat -> string -> Forex.http_outcome.
Variable lib_msg : lib_failure -> string.
Variable float_of_str : string -> option pyfloat.
Variable str_of_float : pyfloat -> string.

Local Abbreviation get_codes :=
  (Forex.get_supported_currency_codes upstream lib_msg).
Local Abbreviation get_codes_body :=
  (Forex.get_supported_currency_codes_body upstream lib_msg).
Local Abbreviation get_rate :=
  (Forex.get_exchange_rate upstream lib_msg float_of_str str_of_float).
Local Abbreviation run :=
  (Forex.run_calls upstream lib_msg float_of_str str_of_float).

Lemma codes_body_state (st : Forex.state) :
  (get_codes_body st).2 = Forex.log_request Forex.codes_url st.
Proof. reflexivity. Qed.

(** A list of codes comes out of the body only along one path. *)
Lemma codes_body_ok_inv (st : Forex.state) (codes : list string) :
  (get_codes_body st).1 = Ok codes ->
  ∃ resp items rates,
    upstream (length (Forex.http_log st)) Forex.codes_url =
      Forex.Responded resp ∧
    ¬ (400 <= Forex.status_code resp < 600) ∧
    Forex.body resp = Ok (JObj items) ∧
    dict_get "rates" items = Some (JObj rates) ∧
    codes = merge_sort String.le rates.*1.
Proof.
  unfold Forex.get_supported_currency_codes_body. cbn [fst].
  unfold Forex.fetch_codes_payload.
  destruct (upstream _ _) as [msg | resp]; [discriminate |].
  unfold Forex.raise_for_status, Forex.response_json.
  case_bool_decide as Hst; [discriminate |]. cbn [bind].
  destruct (Forex.body resp) as [data | [| |]] eqn:Hbody; try discriminate.
  cbn [bind]. unfold Forex.codes_of_payload.
  destruct data as [| b | n | x | s | l | items]; cbn; try discriminate.
  { destruct (is_substring _ s); discriminate. }
  { destruct (existsb _ l); discriminate. }
  unfold dict_has.
  destruct (dict_get "rates" items) as [rates |] eqn:Hrates; cbn;
    [| discriminate].
  destruct rates as [| b | n | x | s | l | rates]; cbn; try discriminate.
  intros [= <-]. by exists resp, items, rates.
Qed.

Lemma codes_miss (st : Forex.state) :
  Forex.codes_cache st = None ->
  get_codes st =
  match (get_codes_body st).1 with
  | Ok codes =>
      (Ok codes,
       Forex.store_codes codes (Forex.log_request Forex.codes_url st))
  | Err e => (Err e, Forex.log_request Forex.codes_url st)
  end.
Proof.
  intros Hmiss. unfold Forex.get_supported_currency_codes. rewrite Hmiss.
  destruct (get_codes_body st) as [[codes | e] st'] eqn:Hb;
    pose proof (codes_body_state st) as Hst; rewrite Hb in Hst;
    cbn in Hst; by subst st'.
Qed.

(** X6: a list of codes fetched from the provider (nothing was cached)
    is the list of the keys of the payload's ["rates"] object put in
    ascending order: a permutation of the keys, sorted; one request was
    sent, and the list is now cached. *)
Theorem fetched_codes_sorted (st st' : Forex.state) (codes : list string) :
  Forex.codes_cache st = None ->
  get_codes st = (Ok codes, st') ->
  ∃ resp items rates,
    upstream (length (Forex.http_log st)) Forex.codes_url =
      Forex.Responded resp ∧
    Forex.body resp = Ok (JObj items) ∧
    dict_get "rates" items = Some (JObj rates) ∧
    codes ≡ₚ rates.*1 ∧
    StronglySorted String.le codes ∧
    Forex.http_log st' = Forex.http_log st ++ [Forex.codes_url] ∧
    Forex.codes_cache st' = Some codes.
Proof.
  intros Hmiss. rewrite codes_miss by done.
  destruct (get_codes_body st).1 as [found | e] eqn:Hb; [| discriminate].
  intros [= <- <-].
  destruct (codes_body_ok_inv st found Hb)
    as (resp & items & rates & Ho & _ & Hbody & Hrates & ->).
  exists resp, items, rates. split; [done |]. split; [done |].
  split; [done |]. split; [apply merge_sort_Permutation |].
  split; [apply (StronglySorted_merge_sort _) | done].
Qed.

Lemma rate_call_keeps_codes (f t : string) (st : Forex.state) :
  Forex.codes_cache (get_rate f t st).2 = Forex.codes_cache st.
Proof.
  unfold Forex.get_exchange_rate.
  destruct (Forex.fx_cache st !! (f, t)); [done |].
  unfold Forex.get_exchange_rate_body. case_decide; [done |].
  by destruct (Forex.fetch_rate _ _ _ _ _ _).
Qed.

Lemma run_keeps_codes (calls : list (string * string)) (st : Forex.state) :
  Forex.codes_cache (run calls st) = Forex.codes_cache st.
Proof.
  revert st. induction calls as [| [f t] rest IH]; intros st; [done |].
  cbn [Forex.run_calls]. by rewrite IH, rate_call_keeps_codes.
Qed.

(** X7: once [get_supported_currency_codes] has returned a list, it
    returns the same list again without a request and with the state
    unchanged, also after any calls of [get_exchange_rate]. *)
Theorem codes_memoised (st st1 : Forex.state) (codes : list string) :
  get_codes st = (Ok codes, st1) ->
  get_codes st1 = (Ok codes, st1) ∧
  ∀ calls, let st2 := run calls st1 in get_codes st2 = (Ok codes, st2).
Proof.
  intros Hfirst.
  assert (Forex.codes_cache st1 = Some codes) as Hcached.
  { revert Hfirst. unfold Forex.get_supported_currency_codes.
    destruct (Forex.codes_cache st) as [old |] eqn:Hc.
    - by intros [= <- <-].
    - destruct (get_codes_body st) as [[found | e] st'];
        [by intros [= <- <-] | discriminate]. }
  split.
  - unfold Forex.get_supported_currency_codes. by rewrite Hcached.
  - intros calls st2. unfold Forex.get_supported_currency_codes.
    subst st2. by rewrite run_keeps_codes, Hcached.
Qed.

(** X8: a call of [get_supported_currency_codes] that raises found
    nothing cached, sent one request and caches nothing; what it raises
    is a ValueError that starts with ["Failed to fetch currencies: "],
    the ValueError ["Invalid currency list response"], the TypeError of
    a payload on which [in] or the subscript fails, or what the parser
    raised on the body beside JSONDecodeError, which no clause catches:
    the ValueError of an integer of too many digits, the RecursionError
    of a document nested too deep. *)
Theorem failed_codes_call (st st' : Forex.state) (e : exn) :
  get_codes st = (Err e, st') ->
  Forex.codes_cache st = None ∧
  st' = Forex.log_request Forex.codes_url st ∧
  Forex.codes_cache st' = None ∧
  ((∃ msg, e = ValueError ("Failed to fetch currencies: " +:+ msg)) ∨
   e = ValueError "Invalid currency list response" ∨
   (∃ v, e = TypeError (lib_msg (NotAContainer v)) ∨
         e = TypeError (lib_msg (BadSubscript v))) ∨
   e = ValueError (lib_msg IntDigitLimit) ∨
   e = RecursionError (lib_msg RecursionLimit)).
Proof.
  destruct (Forex.codes_cache st) as [old |] eqn:Hmiss.
  { unfold Forex.get_supported_currency_codes. rewrite Hmiss. discriminate. }
  rewrite codes_miss by done.
  destruct (get_codes_body st).1 as [found | e0] eqn:Hb; [discriminate |].
  intros [= <- <-]. split; [done |]. split; [done |]. split; [done |].
  revert Hb. unfold Forex.get_supported_currency_codes_body. cbn [fst].
  unfold Forex.fetch_codes_payload.
  destruct (upstream _ _) as [msg | resp].
  { intros [= <-]. left. by exists msg. }
  unfold Forex.raise_for_status, Forex.response_json.
  case_bool_decide as Hst; cbn [bind].
  { intros [= <-]. left. by eexists. }
  destruct (Forex.body resp) as [data | [| |]]; cbn [bind].
  2: { intros [= <-]. left. by eexists. }
  2: { intros [= <-]. do 3 right. by left. }
  2: { intros [= <-]. by do 4 right. }
  unfold Forex.codes_of_payload.
  destruct data as [| b | n | x | s | l | items]; cbn.
  - intros [= <-]. right. right. left. exists JNull. by left.
  - intros [= <-]. right. right. left. exists (JBool b). by left.
  - intros [= <-]. right. right. left. exists (JInt n). by left.
  - intros [= <-]. right. right. left. exists (JNum x). by left.
  - destruct (is_substring _ s); cbn; intros [= <-].
    + right. right. left. exists (JStr s). by right.
    + right. by left.
  - destruct (existsb _ l); cbn; intros [= <-].
    + right. right. left. exists (JArr l). by right.
    + right. by left.
  - unfold dict_has. destruct (dict_get "rates" items) as [rates |]; cbn.
    + destruct rates; cbn; intros [= <-]; right; by left.
    + intros [= <-]. right. by left.
Qed.

(** X9: a payload that is [null], a Boolean or a number makes
    [get_supported_currency_codes] raise TypeError, not the ValueError
    its docstring names: the membership test is outside the [try]. *)
Theorem scalar_payload_raises_type_error (st : Forex.state)
  (resp : Forex.response) (data : json) :
  Forex.codes_cache st = None ->
  upstream (length (Forex.http_log st)) Forex.codes_url = Forex.Responded resp ->
  ¬ (400 <= Forex.status_code resp < 600) ->
  Forex.body resp = Ok data ->
  match data with JNull | JBool _ | JInt _ | JNum _ => True | _ => False end ->
  get_codes st =
    (Err (TypeError (lib_msg (NotAContainer data))),
     Forex.log_request Forex.codes_url st).
Proof.
  intros Hmiss Ho Hst Hbody Hscalar. rewrite codes_miss by done.
  unfold Forex.get_supported_currency_codes_body. cbn [fst].
  unfold Forex.fetch_codes_payload. rewrite Ho.
  unfold Forex.raise_for_status, Forex.response_json.
  rewrite bool_decide_eq_false_2 by done. rewrite Hbody. cbn [bind].
  by destruct data.
Qed.

End CodesFacts.

(** X6, witness: three codes listed out of order. *)
Lemma fetched_codes_sorted_witness :
  Forex.codes_cache Forex.init = None ∧
  Forex.get_supported_currency_codes Demo.codes_upstream Demo.lib_msg Forex.init =
    (Ok ["USD"; "XAU"; "XXX"], Demo.after_codes) ∧
  ∃ rates : list (string * json),
    ["USD"; "XAU"; "XXX"] ≡ₚ rates.*1 ∧
    StronglySorted String.le ["USD"; "XAU"; "XXX"].
Proof.
  assert (Forex.get_supported_currency_codes Demo.codes_upstream Demo.lib_msg
            Forex.init = (Ok ["USD"; "XAU"; "XXX"], Demo.after_codes)) as Hc
    by (vm_compute; reflexivity).
  split; [reflexivity |]. split; [exact Hc |].
  destruct (fetched_codes_sorted Demo.codes_upstream Demo.lib_msg Forex.init
              Demo.after_codes _ eq_refl Hc)
    as (resp & items & rates & _ & _ & _ & Hperm & Hsorted & _).
  exists rates. split; [exact Hperm | exact Hsorted].
Defined.

(** X7, witness: the same provider, asked twice. *)
Lemma codes_memoised_witness :
  Forex.get_supported_currency_codes Demo.codes_upstream Demo.lib_msg Forex.init =
    (Ok ["USD"; "XAU"; "XXX"], Demo.after_codes) ∧
  Forex.get_supported_currency_codes Demo.codes_upstream Demo.lib_msg
    Demo.after_codes = (Ok ["USD"; "XAU"; "XXX"], Demo.after_codes).
Proof.
  assert (Forex.get_supported_currency_codes Demo.codes_upstream Demo.lib_msg
            Forex.init = (Ok ["USD"; "XAU"; "XXX"], Demo.after_codes)) as Hc
    by (vm_compute; reflexivity).
  split; [exact Hc |].
  exact (proj1 (codes_memoised Demo.codes_upstream Demo.lib_msg
                  Demo.float_of_str Demo.str_of_float Forex.init
                  Demo.after_codes _ Hc)).
Defined.

(** X8, witness: the provider answers 503. *)
Lemma failed_codes_call_witness :
  Forex.get_supported_currency_codes (fun _ _ => Demo.answer 503 JNull)
    Demo.lib_msg Forex.init =
    (Err (ValueError "Failed to fetch currencies: HTTP error status"),
     Forex.log_request Forex.codes_url Forex.init) ∧
  Forex.codes_cache (Forex.log_request Forex.codes_url Forex.init) = None.
Proof.
  assert (Forex.get_supported_currency_codes (fun _ _ => Demo.answer 503 JNull)
            Demo.lib_msg Forex.init =
          (Err (ValueError "Failed to fetch currencies: HTTP error status"),
           Forex.log_request Forex.codes_url Forex.init)) as Hc
    by (vm_compute; reflexivity).
  split; [exact Hc |].
  exact (proj1 (proj2 (proj2
    (failed_codes_call (fun _ _ => Demo.answer 503 JNull) Demo.lib_msg
       Forex.init _ _ Hc)))).
Defined.

(** X9, witness: the provider answers 200 with the document [null]. *)
Lemma scalar_payload_raises_type_error_witness :
  Forex.codes_cache Forex.init = None ∧
  ¬ (400 <= 200 < 600) ∧
  Forex.get_supported_currency_codes (fun _ _ => Demo.answer 200 JNull)
    Demo.lib_msg Forex.init =
    (Err (TypeError (Demo.lib_msg (NotAContainer JNull))),
     Forex.log_request Forex.codes_url Forex.init).
Proof.
  split; [reflexivity |]. split; [lia |].
  apply (scalar_payload_raises_type_error (fun _ _ => Demo.answer 200 JNull)
           Demo.lib_msg Forex.init
           {| Forex.status_code := 200; Forex.body := Ok JNull |} JNull);
    [reflexivity | reflexivity | cbn; lia | reflexivity | exact I].
Defined.

Section CurrenciesFacts.

Variable upstream : nat -> string -> Forex.http_outcome.
Variable lib_msg : lib_failure -> string.
Variable currency_name : string -> option string.
Variable get_currency_symbol : string -> result string string.
Variable unicode_isalpha : Z -> bool.
Variable unicode_upper : Z -> text.

Local Abbreviation get_codes :=
  (Forex.get_supported_currency_codes upstream lib_msg).
Local Abbreviation get_currencies :=
  (Forex.get_supported_currencies upstream lib_msg currency_name
     get_currency_symbol unicode_isalpha unicode_upper).
Local Abbreviation entry :=
  (Forex.currency_entry currency_name get_currency_symbol
     unicode_isalpha unicode_upper).
Local Abbreviation handler :=
  (App.currencies upstream lib_msg currency_name get_currency_symbol
     unicode_isalpha unicode_upper).

(** Whether cached or fetched, a list of codes that is returned is in
    ascending order and is the cached list afterwards. *)
Lemma returned_codes_sorted (st st' : Forex.state) (codes : list string) :
  codes_cache_sorted st ->
  get_codes st = (Ok codes, st') ->
  StronglySorted String.le codes ∧ Forex.codes_cache st' = Some codes.
Proof.
  intros Hinv. unfold Forex.get_supported_currency_codes.
  destruct (Forex.codes_cache st) as [old |] eqn:Hc.
  - intros [= <- <-]. split; [by apply Hinv | done].
  - destruct (Forex.get_supported_currency_codes_body upstream lib_msg st)
      as [[found | e] st1] eqn:Hb; [| discriminate].
    intros [= <- <-]. split; [| done].
    assert ((Forex.get_supported_currency_codes_body upstream lib_msg st).1 =
              Ok found) as Hfst by by rewrite Hb.
    destruct (codes_body_ok_inv upstream lib_msg st found Hfst)
      as (resp & items & rates & _ & _ & _ & _ & ->).
    apply (StronglySorted_merge_sort _).
Qed.

Lemma entries_codes (codes : list string) :
  Forex.code <$> (entry <$> codes) = codes.
Proof.
  induction codes as [| c rest IH]; [done |]. cbn [fmap list_fmap].
  f_equal. exact IH.
Qed.

(** X10: when no list is cached or the cached list is sorted, the list
    that GET /api/currencies answers is in ascending order of code, its
    codes are the list of codes that is cached afterwards, and the cache
    is sorted again. *)
Theorem currencies_listing_sorted (st st' : Forex.state)
  (entries : list Forex.currency_info) :
  codes_cache_sorted st ->
  handler st = (App.CurrenciesOk entries, st') ->
  StronglySorted String.le (Forex.code <$> entries) ∧
  Forex.codes_cache st' = Some (Forex.code <$> entries) ∧
  codes_cache_sorted st'.
Proof.
  intros Hinv. unfold App.currencies, Forex.get_supported_currencies.
  destruct (get_codes st) as [[codes | e] st1] eqn:Hc; [| discriminate].
  intros [= <- <-]. rewrite entries_codes.
  destruct (returned_codes_sorted st st1 codes Hinv Hc) as [Hsorted Hcached].
  split; [done |]. split; [done |].
  intros cached Hcached'. rewrite Hcached in Hcached'. by injection Hcached' as <-.
Qed.

Lemma symbol_not_empty (c : string) :
  Forex.symbol_of get_currency_symbol c ≠ "".
Proof.
  unfold Forex.symbol_of.
  assert (c +:+ " " ≠ "") as Hfallback by (by destruct c).
  destruct (get_currency_symbol c) as [sym | e]; [| done].
  destruct sym as [| a r]; cbn; [done | discriminate].
Qed.

(** X11: every entry that [get_supported_currencies] returns has a
    symbol that is not empty. A code of fewer than two characters has no
    emoji; a code that starts with two letters of the alphabet has the
    two regional indicator symbols of their capitals; a code that starts
    with a character that is no letter, in its first or second place,
    has none. *)
Theorem currency_entries_well_formed (st st' : Forex.state)
  (entries : list Forex.currency_info) :
  get_currencies st = (Ok entries, st') ->
  Forall (fun e =>
            Forex.symbol e ≠ "" ∧
            ((length (codepoints (Forex.code e)) < 2)%nat ->
             Forex.emoji e = []) ∧
            (∀ a b rest, codepoints (Forex.code e) = a :: b :: rest ->
               (ascii_letter a -> ascii_letter b ->
                Forex.emoji e =
                  [0x1F1E6 + (capital a - 65); 0x1F1E6 + (capital b - 65)] ∧
                Forall regional_indicator (Forex.emoji e)) ∧
               (is_alpha unicode_isalpha a && is_alpha unicode_isalpha b = false ->
                Forex.emoji e = [])))
         entries.
Proof.
  unfold Forex.get_supported_currencies.
  destruct (get_codes st) as [[codes | e] st1]; [| discriminate].
  intros [= <- <-]. apply Forall_fmap, Forall_true. intros c.
  cbn [Forex.symbol Forex.emoji Forex.code Forex.currency_entry compose].
  split; [apply symbol_not_empty |]. split.
  - intros Hshort. rewrite bool_decide_eq_false_2; [done | lia].
  - intros a b rest ->. cbn [length take].
    rewrite bool_decide_eq_true_2 by lia. split.
    + apply flag_of_ascii_letters.
    + intros Hno. unfold Forex._flag_emoji, py_isalpha.
      cbn [length no_chars negb forallb]. rewrite andb_true_r, Hno.
      by rewrite orb_true_r.
Qed.

End CurrenciesFacts.

(** X10, witness: the first listing against a provider with three codes. *)
Lemma currencies_listing_sorted_witness :
  codes_cache_sorted Forex.init ∧
  ∃ entries,
    Demo.currencies Demo.codes_upstream Forex.init =
      (App.CurrenciesOk entries, Demo.after_codes) ∧
    StronglySorted String.le (Forex.code <$> entries).
Proof.
  assert (codes_cache_sorted Forex.init) as Hinv by (intros codes [=]).
  split; [exact Hinv |].
  eexists. split; [vm_compute; reflexivity |].
  exact (proj1 (currencies_listing_sorted Demo.codes_upstream Demo.lib_msg
                  Demo.currency_name Demo.get_currency_symbol
                  Demo.unicode_isalpha Demo.unicode_upper Forex.init
                  Demo.after_codes _ Hinv
                  ltac:(vm_compute; reflexivity))).
Defined.

(** X11, witness: the same listing. *)
Lemma currency_entries_well_formed_witness :
  ∃ entries,
    Demo.get_supported_currencies Demo.codes_upstream Forex.init =
      (Ok entries, Demo.after_codes) ∧
    Forall (fun e => Forex.symbol e ≠ "") entries.
Proof.
  eexists. split; [vm_compute; reflexivity |].
  eapply Forall_impl;
    [exact (currency_entries_well_formed Demo.codes_upstream Demo.lib_msg
              Demo.currency_name Demo.get_currency_symbol
              Demo.unicode_isalpha Demo.unicode_upper Forex.init
              Demo.after_codes _ ltac:(vm_compute; reflexivity))
    | intros e He; exact (proj1 He)].
Defined.

(** * Further properties of the HTTP layer *)

Section TranslateMore.

Variable DEFAULT_TARGET_CURRENCY : string.
Variable DEFAULT_OPENAI_MODEL : string.
Variable save_uploaded_image :
  string -> option string -> gset string -> result App.save_exn string * gset string.
Variable translate_menu_image :
  string -> string -> string -> gset string ->
  result App.translate_exn MenuTranslation * gset string.

Local Abbreviation handler :=
  (App.translate_menu DEFAULT_TARGET_CURRENCY DEFAULT_OPENAI_MODEL
     save_uploaded_image translate_menu_image).

(** X12: in the reply to a translation that succeeded, the dish at every
    position carries the six texts of the dish at that position of the
    translation, and the data carry its language, currencies and rate;
    the country of the translation is not part of the reply. *)
Theorem translate_reply_keeps_texts (req : App.translate_request)
  (file : App.upload) (disk disk1 disk2 : gset string) (image_path : string)
  (translation : MenuTranslation) :
  App.files_image req = Ok (Some file) ->
  save_uploaded_image (App.file_content file) (App.filename file) disk =
    (Ok image_path, disk1) ->
  translate_menu_image image_path
    (default DEFAULT_TARGET_CURRENCY (App.form_currency req))
    (default DEFAULT_OPENAI_MODEL (App.form_model req)) disk1 =
    (Ok translation, disk2) ->
  ∃ body data ds,
    (handler req disk).1 = App.Reply body 200 ∧
    json_field "data" body = Some data ∧
    json_field "dishes" data = Some (JArr ds) ∧
    (∀ i d, dishes translation !! i = Some d ->
       ∃ j, ds !! i = Some j ∧
            json_field "name" j = Some (JStr (dish_name d)) ∧
            json_field "english_name" j = Some (JStr (english_name d)) ∧
            json_field "description" j = Some (JStr (description d)) ∧
            json_field "original_text" j = Some (JStr (original_text d)) ∧
            json_field "pronunciation" j = Some (JStr (pronunciation d)) ∧
            json_field "price" j = Some (JStr (price d))) ∧
    json_field "source_language" data =
      Some (JStr (source_language translation)) ∧
    json_field "original_currency" data =
      Some (JStr (original_currency translation)) ∧
    json_field "exchange_rate_to_eur" data =
      Some (JNum (exchange_rate_to_eur translation)) ∧
    json_field "target_currency" data =
      Some (JStr (target_currency translation)) ∧
    json_field "country" data = None.
Proof.
  intros Hfile Hsave Hrun.
  rewrite (translate_menu_saved _ _ _ _ req file disk disk1 image_path
             Hfile Hsave).
  rewrite Hrun. cbn [fst snd App.translate_reply].
  eexists _, _, (App.dishes_data translation).
  split; [reflexivity |]. split; [reflexivity |]. split; [reflexivity |].
  split; [| by repeat split].
  intros i d Hi. unfold App.dishes_data.
  exists (model_dump (clear_images d)).
  rewrite list_lookup_fmap, Hi. by repeat split.
Qed.


End TranslateMore.

(** X14: a request whose form cannot be read, a request without image
    and a request with an image that the validator rejects are answered
    without the translation being run: with any two translation clients
    the reply and the disk are the same. The first is answered by the
    HTTP exception with the disk untouched, the other two with 400 and
    the disk as the validator left it. *)
Theorem rejected_upload_not_translated (currency model : string)
  (save : string -> option string -> gset string ->
          result App.save_exn string * gset string)
  (translate1 translate2 : string -> string -> string -> gset string ->
          result App.translate_exn MenuTranslation * gset string)
  (req : App.translate_request) (disk : gset string) :
  match App.files_image req with
  | Ok (Some file) =>
      ∃ e, (save (App.file_content file) (App.filename file) disk).1 =
             Err (App.ImageValidationError e)
  | _ => True
  end ->
  App.translate_menu currency model save translate1 req disk =
    App.translate_menu currency model save translate2 req disk ∧
  match App.files_image req with
  | Err status =>
      App.translate_menu currency model save translate1 req disk =
        (App.Aborted status, disk)
  | Ok found =>
      ∃ message,
        (App.translate_menu currency model save translate1 req disk).1 =
          App.Reply (App.error_body message) 400 ∧
        (App.translate_menu currency model save translate1 req disk).2 =
          match found with
          | None => disk
          | Some file => (save (App.file_content file) (App.filename file) disk).2
          end
  end.
Proof.
  unfold App.translate_menu. destruct (App.files_image req) as [[file |] | code].
  - intros [e He].
    destruct (save _ _ disk) as [[path | [e' | e']] disk1]; cbn in He;
      try discriminate.
    split; [done |]. by eexists.
  - intros _. split; [done |]. by eexists.
  - done.
Qed.

(** X12, witness: one dish. *)
Lemma translate_reply_keeps_texts_witness :
  Demo.save_uploaded_image "JPEG" (Some "test.jpg") ∅ =
    (Ok Demo.saved_path, {[Demo.saved_path]}) ∧
  ∃ body data ds,
    (Demo.translate_menu Demo.translate_ok Demo.upload_request ∅).1 =
      App.Reply body 200 ∧
    json_field "data" body = Some data ∧
    json_field "dishes" data = Some (JArr ds) ∧
    json_field "country" data = None.
Proof.
  assert (Demo.save_uploaded_image "JPEG" (Some "test.jpg") ∅ =
            (Ok Demo.saved_path, {[Demo.saved_path]})) as Hsave
    by (unfold Demo.save_uploaded_image; f_equal; set_solver).
  split; [exact Hsave |].
  destruct (translate_reply_keeps_texts "EUR" "gpt-4o"
              Demo.save_uploaded_image Demo.translate_ok
              Demo.upload_request _ ∅ _ _ Demo.saved_path Demo.spanish_menu
              eq_refl Hsave eq_refl)
    as (body & data & ds & Hreply & Hdata & Hdishes & _ & _ & _ & _ & _ & Hc).
  by exists body, data, ds.
Defined.

(** X14, witness: the validator finds the file too large. *)
Lemma rejected_upload_not_translated_witness :
  App.translate_menu "EUR" "gpt-4o"
    (fun _ _ disk => (Err (App.ImageValidationError "File too large"), disk))
    Demo.translate_ok Demo.upload_request ∅ =
  App.translate_menu "EUR" "gpt-4o"
    (fun _ _ disk => (Err (App.ImageValidationError "File too large"), disk))
    Demo.translate_crash Demo.upload_request ∅.
Proof.
  exact (proj1 (rejected_upload_not_translated "EUR" "gpt-4o"
                  (fun _ _ disk =>
                     (Err (App.ImageValidationError "File too large"), disk))
                  Demo.translate_ok Demo.translate_crash
                  Demo.upload_request ∅
                  (ex_intro _ "File too large" eq_refl))).
Defined.

Section ExchangeRateMore.

Variable upstream : nat -> string -> Forex.http_outcome.
Variable lib_msg : lib_failure -> string.
Variable float_of_str : string -> option pyfloat.
Variable str_of_float : pyfloat -> string.
Variable unicode_upper : Z -> text.

Local Abbreviation handler :=
  (App.exchange_rate upstream lib_msg float_of_str str_of_float unicode_upper).
Local Abbreviation get_rate :=
  (Forex.get_exchange_rate upstream lib_msg float_of_str str_of_float).

(** X15: GET /api/exchange-rate answers 200 with a rate, which is not
    [<= 0] when the cache holds only rates that the client stored, or
    400 with a message that is not empty, or lets escape one of the two
    exceptions of the rate client that are no ValueError: the
    OverflowError of [float()] on an int beyond the range of doubles and
    the RecursionError of the parser. *)
Theorem exchange_rate_reply_shape (arg_from arg_to : option text)
  (st : Forex.state) :
  match (handler arg_from arg_to st).1 with
  | App.Reply body status =>
      (status = 200 ∧
       ∃ rate, body = JObj [("status", JStr "success"); ("rate", JNum rate)] ∧
               (Forex.cache_ok (Forex.fx_cache st) -> ¬ at_most_zero rate)) ∨
      (status = 400 ∧
       ∃ message, body = App.error_body message ∧ message ≠ "")
  | App.Uncaught msg =>
      ∃ f t st',
        (get_rate f t st = (Err (OverflowError msg), st') ∧
         msg = lib_msg IntTooLargeForFloat) ∨
        (get_rate f t st = (Err (RecursionError msg), st') ∧
         msg = lib_msg RecursionLimit)
  | App.Aborted _ => False
  end.
Proof.
  unfold App.exchange_rate.
  destruct (no_chars _ || no_chars _).
  { cbn. right. split; [done |]. by eexists. }
  destruct (get_rate _ _ st) as [[rate | e] st'] eqn:Hcall; cbn [fst].
  - cbn. left. split; [done |]. exists rate. split; [done |]. intros Hok.
    apply float_not_le_zero.
    exact (returned_not_le_zero upstream lib_msg float_of_str str_of_float
             _ _ st st' rate Hok Hcall).
  - destruct (rate_call_raises upstream lib_msg float_of_str str_of_float
                _ _ _ _ _ Hcall) as [(msg & -> & Hmsg) | [-> | ->]]; cbn.
    + right. split; [done |]. by exists msg.
    + eexists _, _, st'. left. split; [exact Hcall | done].
    + eexists _, _, st'. right. split; [exact Hcall | done].
Qed.

(** X16: when the two parameters are ASCII texts that differ by the
    case of their letters only, each with white space around it or
    without, and the cache holds only what the client stored, the answer
    is 200 with the rate 1.0 and no request is sent to the provider. *)
Theorem exchange_rate_same_code (pad1 s1 pad2 pad3 s2 pad4 : text)
  (st : Forex.state) :
  Forex.cache_ok (Forex.fx_cache st) ->
  forallb white pad1 = true -> forallb white pad2 = true ->
  forallb white pad3 = true -> forallb white pad4 = true ->
  trimmed s1 = true -> trimmed s2 = true ->
  ascii_text s1 -> ascii_text s2 ->
  s1 ≠ [] ->
  capital <$> s1 = capital <$> s2 ->
  let arg_from := Some (pad1 ++ s1 ++ pad2) in
  let arg_to := Some (pad3 ++ s2 ++ pad4) in
  (handler arg_from arg_to st).1 =
    App.Reply (JObj [("status", JStr "success"); ("rate", JNum one_float)]) 200 ∧
  Forex.http_log (handler arg_from arg_to st).2 = Forex.http_log st.
Proof.
  intros Hok H1 H2 H3 H4 Ht1 Ht2 Ha1 Ha2 Hne Hsame arg_from arg_to.
  unfold App.exchange_rate. subst arg_from arg_to.
  rewrite !normalise_padded_ascii by done. rewrite <- Hsame.
  destruct s1 as [| c r]; [done |]. cbn [fmap list_fmap no_chars orb].
  destruct (same_currency_call upstream lib_msg float_of_str str_of_float
              (utf8 (capital c :: (capital <$> r))) st Hok) as (st' & -> & Hlog).
  done.
Qed.

End ExchangeRateMore.

(** X16, witness: the dollar to itself, in two spellings. *)
Lemma exchange_rate_same_code_witness :
  Forex.cache_ok (Forex.fx_cache Forex.init) ∧
  trimmed (codepoints "usd") = true ∧ trimmed (codepoints "USD") = true ∧
  capital <$> codepoints "usd" = capital <$> codepoints "USD" ∧
  (Demo.exchange_rate Demo.steady (Some (codepoints " usd"))
     (Some (codepoints "USD ")) Forex.init).1 =
    App.Reply (JObj [("status", JStr "success"); ("rate", JNum one_float)]) 200.
Proof.
  split; [apply cache_ok_empty |]. split; [reflexivity |].
  split; [reflexivity |]. split; [reflexivity |].
  refine (proj1 (exchange_rate_same_code Demo.steady Demo.lib_msg
                   Demo.float_of_str Demo.str_of_float Demo.unicode_upper
                   (codepoints " ") (codepoints "usd") []
                   [] (codepoints "USD") (codepoints " ")
                   Forex.init cache_ok_empty eq_refl eq_refl eq_refl eq_refl
                   eq_refl eq_refl _ _ _ eq_refl)).
  - apply (bool_decide_unpack _). vm_compute. exact I.
  - apply (bool_decide_unpack _). vm_compute. exact I.
  - discriminate.
Defined.

Section FetchMore.

Import ImageSearch (search_exn(..)).

Context {St : Type}.
Variable cached_brave_search :
  string -> string -> string -> St -> result search_exn (list string) * St.
Variable BRAVE_API_KEY : string.

Local Abbreviation loop := (App.fetch_loop cached_brave_search BRAVE_API_KEY).
Local Abbreviation handler := (App.fetch_images cached_brave_search BRAVE_API_KEY).

(** The names with an entry after the loop: those with one before and
    the names of the dishes. *)
Lemma loop_keys (dishes : list (option string)) (language : string)
  (m m' : gmap string (option (list string))) (s s' : St) (n : string) :
  loop dishes language m s = (Ok m', s') ->
  is_Some (m' !! n) <-> is_Some (m !! n) ∨ (Some n ∈ dishes ∧ n ≠ "").
Proof.
  revert m s. induction dishes as [| d rest IH]; intros m s.
  - intros [= <- _]. rewrite elem_of_nil. tauto.
  - cbn [App.fetch_loop]. rewrite elem_of_cons.
    destruct (App.named d) as [k |] eqn:Hk.
    + assert (d = Some k ∧ k ≠ "") as [-> Hne] by by apply named_spec.
      assert (∀ v r, loop rest language (<[k := v]> m) r = (Ok m', s') ->
                is_Some (m' !! n) <->
                is_Some (m !! n) ∨ ((Some n = Some k ∨ Some n ∈ rest) ∧ n ≠ ""))
        as Hstep.
      { intros v r Hrest. rewrite (IH _ _ Hrest), lookup_insert_is_Some.
        destruct (decide (k = n)) as [-> | Hkn].
        - tauto.
        - assert (Some n ≠ Some k) by congruence. tauto. }
      destruct (cached_brave_search k language BRAVE_API_KEY s)
        as [[urls | e] s1]; [by apply Hstep |].
      destruct e; [by apply Hstep | discriminate].
    + intros Hrest. rewrite (IH _ _ Hrest).
      assert (Some n = d -> n = "") as Hd.
      { intros <-. destruct n as [| a r]; [done | discriminate]. }
      tauto.
Qed.

(** X17: the names to which a reply of POST /api/fetch-images gives an
    entry are exactly the names, other than the empty one, of the dishes
    of the batch, with images asked for or not. *)
Theorem images_keys_are_dish_names (data : App.fetch_body) (s s' : St)
  (images_data : gmap string (option (list string))) (n : string) :
  handler (Some data) s = (App.ImagesOk images_data, s') ->
  is_Some (images_data !! n) <->
  Some n ∈ default [] (App.body_dishes data) ∧ n ≠ "".
Proof.
  unfold App.fetch_images.
  destruct (negb (default true (App.body_include_images data))).
  - intros [= <- _]. unfold App.null_images. split.
    + intros [v Hv]. apply null_fold_keys in Hv as [Hv | Hv]; [| tauto].
      by rewrite lookup_empty in Hv.
    + intros [Hin Hn]. rewrite (null_fold_named _ _ n Hin Hn). by eexists.
  - destruct (loop _ _ ∅ s) as [[m | e] s1] eqn:Hloop; [| discriminate].
    intros [= <- _]. rewrite (loop_keys _ _ _ _ _ _ n Hloop).
    rewrite lookup_empty. split; [intros [[v Hv] | H]; [discriminate | done]
                                 | by right].
Qed.

(** X18: with images asked for, the entry of a name in the reply is
    decided by the last dish of that name: the list its search returned,
    the placeholder when that list is empty, null when the search raised
    ImageSearchError. *)
Theorem last_dish_decides_entry (data : App.fetch_body)
  (pre post : list (option string)) (n language : string)
  (m1 images_data : gmap string (option (list string))) (s0 s1 s' : St) :
  App.body_include_images data ≠ Some false ->
  App.body_dishes data = Some (pre ++ Some n :: post) ->
  language = default "English" (App.body_language data) ->
  n ≠ "" ->
  Some n ∉ post ->
  loop pre language ∅ s0 = (Ok m1, s1) ->
  handler (Some data) s0 = (App.ImagesOk images_data, s') ->
  images_data !! n =
    Some match (cached_brave_search n language BRAVE_API_KEY s1).1 with
         | Ok [] => Some [App.placeholder_url n]
         | Ok urls => Some urls
         | Err _ => None
         end.
Proof.
  intros Hinc Hdishes -> Hn Hnot Hpre.
  rewrite (fetch_images_loop cached_brave_search BRAVE_API_KEY data s0 Hinc).
  rewrite Hdishes. cbn [from_option id].
  rewrite (loop_app cached_brave_search BRAVE_API_KEY), Hpre.
  destruct (cached_brave_search n _ BRAVE_API_KEY s1) as [[urls | e] s2] eqn:Hcall.
  - rewrite (loop_search_ok cached_brave_search BRAVE_API_KEY n post _ urls
               m1 s1 s2 Hn Hcall).
    destruct (loop post _ _ s2) as [[r | e] s3] eqn:Hpost; [| discriminate].
    intros [= <- _].
    rewrite (loop_untouched cached_brave_search BRAVE_API_KEY _ _ _ _ _ _ _
               Hnot Hpost).
    rewrite lookup_insert_eq. cbn [fst]. by destruct urls.
  - destruct e as [msg | msg].
    + rewrite (loop_search_error cached_brave_search BRAVE_API_KEY n post _ msg
                 m1 s1 s2 Hn Hcall).
      destruct (loop post _ _ s2) as [[r | e] s3] eqn:Hpost; [| discriminate].
      intros [= <- _].
      rewrite (loop_untouched cached_brave_search BRAVE_API_KEY _ _ _ _ _ _ _
                 Hnot Hpost).
      by rewrite lookup_insert_eq.
    + cbn [App.fetch_loop].
      assert (App.named (Some n) = Some n) as -> by by apply named_spec.
      rewrite Hcall. discriminate.
Qed.

(** X19: an exception of the search client other than ImageSearchError
    ends the request at once: it escapes the handler, no entries are
    answered, and the dishes after it are not searched. *)
Theorem other_exception_aborts (data : App.fetch_body)
  (pre post : list (option string)) (n language msg : string)
  (m1 : gmap string (option (list string))) (s0 s1 s2 : St) :
  App.body_include_images data ≠ Some false ->
  App.body_dishes data = Some (pre ++ Some n :: post) ->
  language = default "English" (App.body_language data) ->
  n ≠ "" ->
  loop pre language ∅ s0 = (Ok m1, s1) ->
  cached_brave_search n language BRAVE_API_KEY s1 = (Err (SearchFailure msg), s2) ->
  handler (Some data) s0 = (App.ImagesUncaught (SearchFailure msg), s2).
Proof.
  intros Hinc Hdishes -> Hn Hpre Hcall.
  rewrite (fetch_images_loop cached_brave_search BRAVE_API_KEY data s0 Hinc).
  rewrite Hdishes. cbn [from_option id].
  rewrite (loop_app cached_brave_search BRAVE_API_KEY), Hpre.
  cbn [App.fetch_loop].
  assert (App.named (Some n) = Some n) as -> by by apply named_spec.
  by rewrite Hcall.
Qed.

End FetchMore.

Section RecordingFacts.

Variable answer :
  string -> string -> result ImageSearch.search_exn (list string).
Variable BRAVE_API_KEY : string.

Local Abbreviation loop := (App.fetch_loop (recording answer) BRAVE_API_KEY).
Local Abbreviation handler := (App.fetch_images (recording answer) BRAVE_API_KEY).

Lemma recorded_loop (dishes : list (option string)) (language : string)
  (m m' : gmap string (option (list string)))
  (calls calls' : list (string * string * string)) :
  loop dishes language m calls = (Ok m', calls') ->
  calls' =
    calls ++ ((fun n => (n, language, BRAVE_API_KEY)) <$> named_dishes dishes).
Proof.
  revert m calls. induction dishes as [| d rest IH]; intros m calls.
  - intros [= _ <-]. unfold named_dishes. cbn. by rewrite app_nil_r.
  - cbn [App.fetch_loop]. unfold named_dishes in *. cbn [omap list_omap].
    destruct (App.named d) as [k |]; [| apply IH].
    unfold recording at 1.
    destruct (answer k language) as [urls | e].
    + intros H. rewrite (IH _ _ H). cbn [fmap list_fmap].
      by rewrite <- app_assoc.
    + destruct e; [| discriminate].
      intros H. rewrite (IH _ _ H). cbn [fmap list_fmap].
      by rewrite <- app_assoc.
Qed.

(** X20: in a request that is answered, the search client is called once
    for every dish with a name that is not empty, in the order of the
    batch and a dish of a repeated name again, each time with the
    language of the body (English when it has none) and the API key; and
    not at all when [include_images] is false. *)
Theorem one_search_per_named_dish (data : App.fetch_body)
  (calls calls' : list (string * string * string))
  (images_data : gmap string (option (list string))) :
  handler (Some data) calls = (App.ImagesOk images_data, calls') ->
  calls' =
    calls ++
    (if default true (App.body_include_images data)
     then (fun n => (n, default "English" (App.body_language data),
                     BRAVE_API_KEY))
            <$> named_dishes (default [] (App.body_dishes data))
     else []).
Proof.
  unfold App.fetch_images.
  destruct (default true (App.body_include_images data)); cbn [negb].
  - destruct (loop _ _ ∅ calls) as [[m | e] calls1] eqn:Hloop; [| discriminate].
    intros [= _ <-]. by eapply recorded_loop.
  - intros [= _ <-]. by rewrite app_nil_r.
Qed.

End RecordingFacts.

(** X17, witness: four dishes, two of them without a name. *)
Lemma images_keys_are_dish_names_witness :
  ∃ images_data s',
    Demo.fetch_images Demo.no_results (Some Demo.paella_and_flan)
      ImageSearch.init = (App.ImagesOk images_data, s') ∧
    (is_Some (images_data !! "Flan") <->
     Some "Flan" ∈ default [] (App.body_dishes Demo.paella_and_flan) ∧
     "Flan" ≠ "") ∧
    (is_Some (images_data !! "") <->
     Some "" ∈ default [] (App.body_dishes Demo.paella_and_flan) ∧ "" ≠ "").
Proof.
  eexists _, _. split; [vm_compute; reflexivity |].
  split;
    refine (images_keys_are_dish_names
              (ImageSearch.cached_brave_search Demo.no_results) "key"
              Demo.paella_and_flan ImageSearch.init _ _ _ _);
    vm_compute; reflexivity.
Defined.

(** X18, witness: the only dish named after the crema finds nothing. *)
Lemma last_dish_decides_entry_witness :
  (Some "Crema Catalana" ∉ [Some ""; Some "Flan"]) ∧
  ∃ images_data s',
    Demo.fetch_images Demo.no_results (Some Demo.paella_and_flan)
      ImageSearch.init = (App.ImagesOk images_data, s') ∧
    images_data !! "Crema Catalana" =
      Some (Some [App.placeholder_url "Crema Catalana"]).
Proof.
  assert (Some "Crema Catalana" ∉ [Some ""; Some "Flan"]) as Hnot.
  { intros H. apply elem_of_cons in H as [H | H]; [discriminate |].
    apply elem_of_cons in H as [H | H]; [discriminate |].
    by apply elem_of_nil in H. }
  split; [exact Hnot |]. eexists _, _.
  split; [vm_compute; reflexivity |].
  refine (last_dish_decides_entry
            (ImageSearch.cached_brave_search Demo.no_results) "key"
            Demo.paella_and_flan [None] [Some ""; Some "Flan"]
            "Crema Catalana" "Spanish" ∅ _ ImageSearch.init ImageSearch.init _
            _ eq_refl eq_refl _ Hnot eq_refl _);
    [discriminate | discriminate | vm_compute; reflexivity].
Defined.

(** X19, witness: the client crashes on the only dish. *)
Lemma other_exception_aborts_witness :
  recording (fun _ _ => Err (ImageSearch.SearchFailure "crash"))
    "Soup" "English" "key" [] =
    (Err (ImageSearch.SearchFailure "crash"), [("Soup", "English", "key")]) ∧
  App.fetch_images
    (recording (fun _ _ => Err (ImageSearch.SearchFailure "crash"))) "key"
    (Some Demo.one_soup) [] =
    (App.ImagesUncaught (ImageSearch.SearchFailure "crash"),
     [("Soup", "English", "key")]).
Proof.
  split; [reflexivity |].
  refine (other_exception_aborts
            (recording (fun _ _ => Err (ImageSearch.SearchFailure "crash")))
            "key" Demo.one_soup [] [] "Soup" "English" "crash" ∅ [] [] _
            _ eq_refl eq_refl _ eq_refl eq_refl);
    discriminate.
Defined.

(** X20, witness: four dishes, two of them without a name. *)
Lemma one_search_per_named_dish_witness :
  App.fetch_images (recording (fun _ _ => Ok [])) "key"
    (Some Demo.paella_and_flan) [] =
    (App.ImagesOk
       {[ "Crema Catalana" := Some [App.placeholder_url "Crema Catalana"];
          "Flan" := Some [App.placeholder_url "Flan"] ]},
     [("Crema Catalana", "Spanish", "key"); ("Flan", "Spanish", "key")]) ∧
  [("Crema Catalana", "Spanish", "key"); ("Flan", "Spanish", "key")] =
    [] ++ ((fun n => (n, "Spanish", "key")) <$>
           named_dishes [None; Some "Crema Catalana"; Some ""; Some "Flan"]).
Proof.
  assert (App.fetch_images (recording (fun _ _ => Ok [])) "key"
            (Some Demo.paella_and_flan) [] =
          (App.ImagesOk
             {[ "Crema Catalana" := Some [App.placeholder_url "Crema Catalana"];
                "Flan" := Some [App.placeholder_url "Flan"] ]},
           [("Crema Catalana", "Spanish", "key"); ("Flan", "Spanish", "key")]))
    as Hrun by (vm_compute; reflexivity).
  split; [exact Hrun |].
  exact (one_search_per_named_dish (fun _ _ => Ok []) "key"
           Demo.paella_and_flan [] _ _ Hrun).
Defined.
